(** * v4l2-hdr-shim: the ioctl interposer of src/src/v4l2-hdr-shim.c

    A shallow embedding of the LD_PRELOAD shim and the properties its
    specification states about it.  The C globals become a record that is
    passed explicitly, the libc and kernel services the shim calls
    (dlsym, getenv, readlink, the real ioctl) are fields of a [World], and
    the two ways the process can die (abort, a wild pointer) are results of a
    small error-and-trace monad. *)

From Stdlib Require Import ZArith String Ascii.
From stdpp Require Import gmap strings list pretty.

Local Open Scope string_scope.
Local Open Scope Z_scope.

(** ** C strings and character buffers *)

Module CStr.

(** The terminator ['\0']. *)
Definition NUL : ascii := Ascii.zero.

(** A byte read as [unsigned char]. *)
Definition uchar (c : ascii) : Z := Z.of_N (N_of_ascii c).

Definition bytes (s : string) : list ascii := list_ascii_of_string s.

(** What a [const char *] to the string [s] points at: its bytes, then the
    terminator. *)
Definition image (s : string) : list ascii := bytes s ++ [NUL].

(** [p[0]] for a pointer to the string [s]. *)
Definition first_char (s : string) : ascii :=
  match s with
  | EmptyString => NUL
  | String c _ => c
  end.

(** The bytes of a buffer before its first terminator: the string a C
    function sees in it. *)
Fixpoint upto_nul (b : list ascii) : list ascii :=
  match b with
  | [] => []
  | c :: r => if Ascii.eqb c NUL then [] else c :: upto_nul r
  end.

Definition strlen (s : string) : nat := length (upto_nul (bytes s)).

(** No byte of [b] is the terminator. *)
Definition no_nul (b : list ascii) : bool :=
  forallb (fun c => negb (Ascii.eqb c NUL)) b.

(** [strcmp]: walks both buffers until they differ or both hold the
    terminator.  [None] is a read past the end of a buffer that holds no
    terminator. *)
Fixpoint strcmp (s1 s2 : list ascii) : option Z :=
  match s1, s2 with
  | c1 :: r1, c2 :: r2 =>
      if Ascii.eqb c1 c2
      then (if Ascii.eqb c1 NUL then Some 0 else strcmp r1 r2)
      else Some (uchar c1 - uchar c2)
  | _, _ => None
  end.

(** [char buf[n] = {0}]. *)
Definition zeroed (n : nat) : list ascii := replicate n NUL.

(** [snprintf(buf, size, "%s%d", prefix, d)]: the formatted text, cut to
    [size - 1] bytes. *)
Definition snprintf_sd (size : nat) (prefix : string) (d : Z) : string :=
  string_of_list_ascii (take (size - 1) (bytes (prefix +:+ pretty d))).

End CStr.

(** ** The payload and the constants of linux/videodev2.h *)

(** Modelled from the spec: [struct v4l2_pix_format] of the kernel header
    linux/videodev2.h, which the repository includes but does not contain.
    The fields are [__u32]; the four the shim writes are [colorspace],
    [ycbcr_enc], [quantization] and [xfer_func]. *)
Record v4l2_pix_format := {
  width : Z;
  height : Z;
  pixelformat : Z;
  field : Z;
  bytesperline : Z;
  sizeimage : Z;
  colorspace : Z;
  priv : Z;
  flags : Z;
  ycbcr_enc : Z;
  quantization : Z;
  xfer_func : Z
}.

(** Modelled from the spec: [struct v4l2_format] of the same header, a type
    discriminant and a union read here through its member [fmt.pix];
    [raw_tail] stands for the bytes of the union that lie behind [pix]. *)
Record v4l2_format := {
  type : Z;
  pix : v4l2_pix_format;
  raw_tail : list Z
}.

(** The enumerators of linux/videodev2.h that the source names, with the
    values the header gives them ([enum v4l2_buf_type], [v4l2_colorspace],
    [v4l2_xfer_func], [v4l2_ycbcr_encoding], [v4l2_quantization]).  The
    numbers in the comments of lines 106-108 of the source, 9, 6 and 10, are
    not these: in the header 9 is [V4L2_COLORSPACE_OPRGB], 6 is
    [V4L2_XFER_FUNC_DCI_P3], and no encoding has the value 10. *)
Definition V4L2_BUF_TYPE_VIDEO_OUTPUT : Z := 2.
Definition V4L2_COLORSPACE_BT2020 : Z := 10.
Definition V4L2_XFER_FUNC_SMPTE2084 : Z := 7.
Definition V4L2_YCBCR_ENC_BT2020 : Z := 6.
Definition V4L2_QUANTIZATION_LIM_RANGE : Z := 2.

(** The memory the caller's payload pointers point into: the format
    structures it holds, by address.  Address [0] is [NULL]. *)
Abbreviation Mem := (gmap Z v4l2_format).

(** ** The process around the shim *)

(** The real dispatch function: descriptor, request code, payload pointer
    and the memory the pointer refers to, giving the return value and the
    memory as the kernel leaves it. *)
Definition RealIoctl : Type := Z -> Z -> Z -> Mem -> Z * Mem.

Record World := {
  (** [dlsym(RTLD_NEXT, name)]; [None] is a null result. *)
  dlsym_next : string -> option RealIoctl;
  (** the process environment read by [getenv] *)
  environ : gmap string string;
  (** the contents of the symbolic link at a path; [None] where [readlink]
      fails *)
  symlink : string -> option string
}.

Definition getenv (w : World) (name : string) : option string := environ w !! name.

(** [readlink(path, buf, bufsiz)]: at most [bufsiz] bytes of the link's
    contents are copied to the start of [buf], no terminator is added, and
    the number of bytes copied is returned; [-1] on failure. *)
Definition readlink (w : World) (path : string) (buf : list ascii) (bufsiz : nat)
  : Z * list ascii :=
  match symlink w path with
  | None => (-1, buf)
  | Some tgt =>
      let data := take bufsiz (CStr.bytes tgt) in
      (Z.of_nat (length data), (data ++ drop (length data) buf)%list)
  end.

(** The file-scope variables of the shim (lines 41-46).  In the source
    [target_dev] is a pointer, to the value of the environment entry or to
    the literal [""]; here it is the string that pointer refers to, so a
    state is the globals together with that string as it is when a call is
    made.  A host that overwrites the environment entry in place between
    two calls changes that string from outside the shim; [run] below has no
    such host. *)
Record ShimState := {
  real_ioctl : option RealIoctl;
  target_dev : option string;
  shim_disabled : bool;
  shim_init_done : bool
}.

(** Their initialisers. *)
Definition shim_initial : ShimState :=
  {| real_ioctl := None; target_dev := None;
     shim_disabled := false; shim_init_done := false |}.

Definition set_real_ioctl (f : option RealIoctl) (st : ShimState) : ShimState :=
  {| real_ioctl := f; target_dev := target_dev st;
     shim_disabled := shim_disabled st; shim_init_done := shim_init_done st |}.
Definition set_target_dev (t : option string) (st : ShimState) : ShimState :=
  {| real_ioctl := real_ioctl st; target_dev := t;
     shim_disabled := shim_disabled st; shim_init_done := shim_init_done st |}.
Definition set_shim_disabled (b : bool) (st : ShimState) : ShimState :=
  {| real_ioctl := real_ioctl st; target_dev := target_dev st;
     shim_disabled := b; shim_init_done := shim_init_done st |}.
Definition set_shim_init_done (b : bool) (st : ShimState) : ShimState :=
  {| real_ioctl := real_ioctl st; target_dev := target_dev st;
     shim_disabled := shim_disabled st; shim_init_done := b |}.

(** ** Effects: what the process does that an observer can see *)

Inductive event :=
| EvDlsym (name : string)
    (** a lookup [dlsym(RTLD_NEXT, name)] *)
| EvStderr (msg : string)
    (** a line written to the error stream *)
| EvForward (fd request arg : Z) (m : Mem).
    (** [real_ioctl(fd, request, arg)] entered, with the memory as it is then *)

Inductive result (A : Type) :=
| Ok (a : A)
| Aborted     (** [abort()] was called *)
| Segv.       (** a null or wild pointer was used *)
Arguments Ok {A} a.
Arguments Aborted {A}.
Arguments Segv {A}.

(** A computation: the events it caused, in order, and how it ended. *)
Definition exec (A : Type) : Type := list event * result A.

#[global] Instance exec_ret : MRet exec := fun A a => ([], Ok a).
#[global] Instance exec_bind : MBind exec := fun A B f m =>
  match m with
  | (t, Ok a) => let '(t', r) := f a in ((t ++ t')%list, r)
  | (t, Aborted) => (t, Aborted)
  | (t, Segv) => (t, Segv)
  end.

Definition emit (e : event) : exec unit := ([e], Ok tt).
Definition abort {A} : exec A := ([], Aborted).
Definition segv {A} : exec A := ([], Segv).

Definition trace {A} (m : exec A) : list event := fst m.
Definition outcome {A} (m : exec A) : result A := snd m.

(** ** The shim *)

(** The request code [VIDIOC_S_FMT] is a macro of linux/videodev2.h whose
    value follows from the size of [struct v4l2_format] on the target
    platform; the shim only compares against it. *)
Class Videodev2 := { VIDIOC_S_FMT : Z }.

Section Shim.

Context `{V : Videodev2}.

(** The text of line 54. *)
Definition fatal_diagnostic : string :=
  "[v4l2-hdr-shim] FATAL: cannot resolve ioctl via RTLD_NEXT" +:+ String "010" "".

(** [env_dis && env_dis[0] == '1'] (line 59). *)
Definition disable_requested (env_dis : option string) : bool :=
  match env_dis with
  | Some s => Ascii.eqb (CStr.first_char s) "1"
  | None => false
  end.

(** [(env_dev && env_dev[0]) ? env_dev : ""] (line 65). *)
Definition device_setting (env_dev : option string) : string :=
  match env_dev with
  | Some s => if Ascii.eqb (CStr.first_char s) CStr.NUL then "" else s
  | None => ""
  end.

(** [shim_init] (lines 48-66). *)
Definition shim_init (w : World) (st : ShimState) : exec ShimState :=
  if shim_init_done st then mret st
  else
    let st := set_shim_init_done true st in
    _ ← emit (EvDlsym "ioctl");
    let st := set_real_ioctl (dlsym_next w "ioctl") st in
    match real_ioctl st with
    | None => _ ← emit (EvStderr fatal_diagnostic); abort
    | Some _ =>
        let env_dis := getenv w "V4L2_HDR_SHIM_DISABLE" in
        if disable_requested env_dis
        then mret (set_shim_disabled true st)
        else
          let env_dev := getenv w "V4L2_HDR_SHIM_DEVICE" in
          mret (set_target_dev (Some (device_setting env_dev)) st)
    end.

(** The path [snprintf] leaves in [proc_path] (line 79). *)
Definition proc_path (fd : Z) : string := CStr.snprintf_sd 64 "/proc/self/fd/" fd.

(** [should_patch_fd] (lines 72-84).  [Segv] is [strcmp] running off the
    end of [link]. *)
Definition should_patch_fd (w : World) (st : ShimState) (fd : Z) : exec bool :=
  match target_dev st with
  | None => mret true
  | Some t =>
      if Ascii.eqb (CStr.first_char t) CStr.NUL then mret true
      else
        let link := CStr.zeroed 256 in
        let '(n, link) := readlink w (proc_path fd) link (256 - 1) in
        if n <=? 0 then mret false
        else
          let link := <[Z.to_nat n := CStr.NUL]> link in
          match CStr.strcmp link (CStr.image t) with
          | Some r => mret (r =? 0)
          | None => segv
          end
  end.

(** The test of line 73, [!target_dev || target_dev[0] == '\0']: no
    target device is configured. *)
Definition target_unset (st : ShimState) : bool :=
  match target_dev st with
  | None => true
  | Some t => Ascii.eqb (CStr.first_char t) CStr.NUL
  end.

(** The four assignments of lines 106-109. *)
Definition hdr_patch_pix (p : v4l2_pix_format) : v4l2_pix_format :=
  {| width := width p; height := height p; pixelformat := pixelformat p;
     field := field p; bytesperline := bytesperline p; sizeimage := sizeimage p;
     colorspace := V4L2_COLORSPACE_BT2020;
     priv := priv p; flags := flags p;
     ycbcr_enc := V4L2_YCBCR_ENC_BT2020;
     quantization := V4L2_QUANTIZATION_LIM_RANGE;
     xfer_func := V4L2_XFER_FUNC_SMPTE2084 |}.

Definition hdr_patch (f : v4l2_format) : v4l2_format :=
  {| type := type f; pix := hdr_patch_pix (pix f); raw_tail := raw_tail f |}.

(** Lines 94-117 of [ioctl]: the inspection of the request and the patch,
    giving the memory as the shim leaves it.  [Segv] is the read of
    [fmt->type] through a pointer that refers to no format structure. *)
Definition inspect_and_patch (w : World) (st : ShimState) (m : Mem)
    (fd request arg : Z) : exec Mem :=
  if negb (shim_disabled st) && (request =? VIDIOC_S_FMT) && negb (arg =? 0)
  then
    match m !! arg with
    | None => segv
    | Some fmt =>
        if type fmt =? V4L2_BUF_TYPE_VIDEO_OUTPUT
        then
          patch ← should_patch_fd w st fd;
          if (patch : bool) then mret (<[arg := hdr_patch fmt]> m) else mret m
        else mret m
    end
  else mret m.

(** Line 119: the call through [real_ioctl]; a null pointer there is a
    [Segv]. *)
Definition forward (st : ShimState) (m : Mem) (fd request arg : Z) : exec (Z * Mem) :=
  match real_ioctl st with
  | None => segv
  | Some f => _ ← emit (EvForward fd request arg m); mret (f fd request arg m)
  end.

(** The exported [ioctl] (lines 86-120): the globals after the call, the
    value returned and the memory as the real call leaves it. *)
Definition ioctl (w : World) (st : ShimState) (m : Mem) (fd request arg : Z)
  : exec (ShimState * Z * Mem) :=
  st ← shim_init w st;
  m ← inspect_and_patch w st m fd request arg;
  '(r, m) ← forward st m fd request arg;
  mret (st, r, m).

(** One call of the host process into [ioctl], with the process as it is
    when the call is made. *)
Record Call := {
  c_world : World;
  c_mem : Mem;
  c_fd : Z;
  c_request : Z;
  c_arg : Z
}.

(** What reaches the real function when a call is passed on as the caller
    made it. *)
Definition pass_through (c : Call) : event :=
  EvForward (c_fd c) (c_request c) (c_arg c) (c_mem c).

(** The calls of one thread of the process, one after the other; a call
    that aborts or faults ends the process. *)
Fixpoint run (st : ShimState) (calls : list Call) : exec ShimState :=
  match calls with
  | [] => mret st
  | c :: rest =>
      '(st, _, _) ← ioctl (c_world c) st (c_mem c) (c_fd c) (c_request c) (c_arg c);
      run st rest
  end.

(** The globals once [shim_init] has been through: the real entry point
    is known, and either the shim is disabled or a target (possibly the
    empty string) is recorded. *)
Definition ready (st : ShimState) : Prop :=
  shim_init_done st = true /\
  is_Some (real_ioctl st) /\
  (shim_disabled st = true /\ target_dev st = None \/
   shim_disabled st = false /\
     exists t, target_dev st = Some t /\ (t = "" \/ CStr.first_char t <> CStr.NUL)).

(** The globals as some sequence of calls from the start of the process
    leaves them. *)
Definition reachable (st : ShimState) : Prop :=
  exists calls, outcome (run shim_initial calls) = Ok st.

(** The globals that the first [shim_init] sets up from the environment. *)
Definition configured (f : RealIoctl) (w : World) : ShimState :=
  if disable_requested (getenv w "V4L2_HDR_SHIM_DISABLE")
  then {| real_ioctl := Some f; target_dev := None;
          shim_disabled := true; shim_init_done := true |}
  else {| real_ioctl := Some f;
          target_dev := Some (device_setting (getenv w "V4L2_HDR_SHIM_DEVICE"));
          shim_disabled := false; shim_init_done := true |}.

End Shim.

(** ** Threads

    The host process may call [ioctl] from several threads.  A thread's call
    is cut into steps so that every step holds at most the accesses to the
    shared globals that one statement of the source makes; a schedule picks
    the thread to make the next step.  The inspection (lines 94-117) is one
    step, which only removes interleavings. *)

Section Threads.

Context `{V : Videodev2}.

(** The statement a thread is about to execute. *)
Inductive pc :=
| AtEntry          (** line 49, [if (shim_init_done) return;] *)
| AtSetDone        (** line 50, [shim_init_done = 1;] *)
| AtDlsym          (** line 52, [real_ioctl = dlsym(RTLD_NEXT, "ioctl");] *)
| AtCheckReal      (** lines 53-56, [if (!real_ioctl) ... abort();] *)
| AtGetenvDisable  (** lines 58-62 *)
| AtGetenvDevice   (** lines 64-65 *)
| AtInspect        (** lines 94-117 *)
| AtForward        (** line 119 *)
| Returned (r : Z).

Record thread := {
  t_pc : pc;
  t_call : Call;
  t_mem : Mem
}.

Definition spawn (c : Call) : thread :=
  {| t_pc := AtEntry; t_call := c; t_mem := c_mem c |}.

Definition goto (l : pc) (th : thread) : thread :=
  {| t_pc := l; t_call := t_call th; t_mem := t_mem th |}.

Definition with_mem (m : Mem) (th : thread) : thread :=
  {| t_pc := t_pc th; t_call := t_call th; t_mem := m |}.

(** One step of a thread on the shared globals. *)
Definition thread_step (st : ShimState) (th : thread) : exec (ShimState * thread) :=
  let c := t_call th in
  let w := c_world c in
  match t_pc th with
  | AtEntry =>
      mret (st, goto (if shim_init_done st then AtInspect else AtSetDone) th)
  | AtSetDone =>
      mret (set_shim_init_done true st, goto AtDlsym th)
  | AtDlsym =>
      _ ← emit (EvDlsym "ioctl");
      mret (set_real_ioctl (dlsym_next w "ioctl") st, goto AtCheckReal th)
  | AtCheckReal =>
      match real_ioctl st with
      | None => _ ← emit (EvStderr fatal_diagnostic); abort
      | Some _ => mret (st, goto AtGetenvDisable th)
      end
  | AtGetenvDisable =>
      if disable_requested (getenv w "V4L2_HDR_SHIM_DISABLE")
      then mret (set_shim_disabled true st, goto AtInspect th)
      else mret (st, goto AtGetenvDevice th)
  | AtGetenvDevice =>
      mret (set_target_dev (Some (device_setting (getenv w "V4L2_HDR_SHIM_DEVICE"))) st,
            goto AtInspect th)
  | AtInspect =>
      m ← inspect_and_patch w st (t_mem th) (c_fd c) (c_request c) (c_arg c);
      mret (st, goto AtForward (with_mem m th))
  | AtForward =>
      '(r, m) ← forward st (t_mem th) (c_fd c) (c_request c) (c_arg c);
      mret (st, goto (Returned r) (with_mem m th))
  | Returned _ => mret (st, th)
  end.

Record machine := {
  globals : ShimState;
  threads : list thread
}.

(** The process at its start, with one thread per call. *)
Definition boot (calls : list Call) : machine :=
  {| globals := shim_initial; threads := spawn <$> calls |}.

(** Thread [i] makes a step. *)
Definition sched_step (i : nat) (M : machine) : exec machine :=
  match threads M !! i with
  | None => mret M
  | Some th =>
      '(st, th) ← thread_step (globals M) th;
      mret {| globals := st; threads := <[i := th]> (threads M) |}
  end.

Fixpoint interleave (schedule : list nat) (M : machine) : exec machine :=
  match schedule with
  | [] => mret M
  | i :: rest => M ← sched_step i M; interleave rest M
  end.

(** The number of symbol resolutions in a trace. *)
Definition is_resolution (e : event) : bool :=
  match e with
  | EvDlsym _ => true
  | _ => false
  end.

Definition resolutions (t : list event) : nat :=
  length (List.filter is_resolution t).

End Threads.

(** ** Sample processes *)

Module Scenario.

(** The request code on x86-64 Linux, [_IOWR('V', 5, struct v4l2_format)]
    with a structure of 208 bytes. *)
Definition linux_amd64 : Videodev2 := {| VIDIOC_S_FMT := 0xC0D05605 |}.

(** A driver that accepts every request and leaves the payload alone. *)
Definition driver : RealIoctl := fun _ _ _ m => (0, m).

(** What the writer sends: 1920x1080 NV12 tagged sRGB, with the given type
    discriminant. *)
Definition writer_format (ty : Z) : v4l2_format :=
  {| type := ty;
     pix := {| width := 1920; height := 1080; pixelformat := 0x3231564e;
               field := 1; bytesperline := 1920; sizeimage := 3110400;
               colorspace := 8; priv := 0; flags := 0;
               ycbcr_enc := 0; quantization := 0; xfer_func := 0 |};
     raw_tail := [] |}.

(** Descriptor 3 is open on [path]; no other descriptor resolves. *)
Definition fd3_on (path : string) : string -> option string :=
  fun p => if String.eqb p "/proc/self/fd/3" then Some path else None.

Definition nothing_open : string -> option string := fun _ => None.

Definition world (env : gmap string string) (links : string -> option string) : World :=
  {| dlsym_next := fun _ => Some driver; environ := env; symlink := links |}.

(** A process in which [dlsym] finds no next [ioctl]. *)
Definition world_unresolved : World :=
  {| dlsym_next := fun _ => None; environ := ∅; symlink := nothing_open |}.

Definition payload_at_100 (ty : Z) : Mem := {[ 100 := writer_format ty ]}.

(** A path of 256 bytes. *)
Definition long_path : string := string_of_list_ascii (replicate 256 "a"%char).

Definition call (w : World) (ty fd request : Z) : Call :=
  {| c_world := w; c_mem := payload_at_100 ty; c_fd := fd;
     c_request := request; c_arg := 100 |}.

End Scenario.

(** ** The reset utility of src/scripts/usbreset.c *)

Module UsbReset.

(** The two macros the utility takes from system headers that are not part
    of the repository: the open flag of fcntl.h and the reset request of
    linux/usbdevice_fs.h. *)
Class Headers := { O_WRONLY : Z; USBDEVFS_RESET : Z }.

(** The system calls and library functions [main] relies on.  A call gives
    its return value and the [errno] it leaves. *)
Record System := {
  sys_open : string -> Z -> Z * Z;
  sys_ioctl : Z -> Z -> Z -> Z * Z;
  strerror : Z -> string
}.

(** The calls [main] makes on the system and on stdio, in the order in
    which it makes them.  [ToStdout] is the call of [printf]: its text
    reaches the descriptor when stdio flushes the buffer, which for a file
    or a pipe is at exit, after the [close] that follows it in [main].
    [ToStderr] is a write to the unbuffered error stream. *)
Inductive action :=
| ToStderr (text : string)
| ToStdout (text : string)
| SysOpen (path : string) (flags : Z)
| SysIoctl (fd request arg : Z)
| SysClose (fd : Z).

Definition newline : string := String "010" "".

(** The text of line 13. *)
Definition usage : string :=
  "Usage: usbreset <device-node (e.g. /dev/bus/usb/001/002)>" +:+ newline.

(** What [perror(msg)] writes. *)
Definition perror (sys : System) (msg : string) (errno : Z) : string :=
  msg +:+ ": " +:+ strerror sys errno +:+ newline.

(** [main] (lines 8-30): the actions and the exit status.  [argv] holds the
    program name and the arguments, so [argc] is its length. *)
Definition main `{Headers} (sys : System) (argv : list string) : list action * Z :=
  let argc := Z.of_nat (length argv) in
  if negb (argc =? 2) then ([ToStderr usage], 1)
  else
    let filename := default "" (argv !! 1%nat) in
    let '(fd, errno) := sys_open sys filename O_WRONLY in
    if fd <? 0
    then ([SysOpen filename O_WRONLY;
           ToStderr (perror sys "Error opening device" errno)], 1)
    else
      let '(r, errno) := sys_ioctl sys fd USBDEVFS_RESET 0 in
      if r <? 0
      then ([SysOpen filename O_WRONLY;
             SysIoctl fd USBDEVFS_RESET 0;
             ToStderr (perror sys "Error in ioctl" errno);
             SysClose fd], 1)
      else ([SysOpen filename O_WRONLY;
             SysIoctl fd USBDEVFS_RESET 0;
             ToStdout ("Reset successful on " +:+ filename +:+ newline);
             SysClose fd], 0).

Definition is_close (a : action) : bool :=
  match a with
  | SysClose _ => true
  | _ => false
  end.

Definition is_stdout (a : action) : bool :=
  match a with
  | ToStdout _ => true
  | _ => false
  end.

Definition is_stderr (a : action) : bool :=
  match a with
  | ToStderr _ => true
  | _ => false
  end.

(** Sample systems: the values of the macros on Linux, a bus on which only
    [/dev/bus/usb/001/002] can be opened, and one on which the reset is
    refused. *)
Definition linux : Headers := {| O_WRONLY := 1; USBDEVFS_RESET := 0x5514 |}.

Definition one_device (reset_result : Z) : System :=
  {| sys_open := fun path _ =>
       if String.eqb path "/dev/bus/usb/001/002" then (3, 0) else (-1, 2);
     sys_ioctl := fun _ _ _ => (reset_result, if reset_result <? 0 then 16 else 0);
     strerror := fun e =>
       if e =? 2 then "No such file or directory"
       else if e =? 16 then "Device or resource busy"
       else "Unknown error" |}.

End UsbReset.

(** ** Laws of the effect monad *)

Lemma exec_bind_ret {A B} (a : A) (f : A -> exec B) : mret a ≫= f = f a.
Proof. unfold mbind, exec_bind, mret, exec_ret. by destruct (f a). Qed.

Lemma exec_bind_trace {A B} (m : exec A) (f : A -> exec B) :
  trace (m ≫= f) =
    (trace m ++ match outcome m with Ok a => trace (f a) | _ => [] end)%list.
Proof.
  destruct m as [t [a| |]]; cbn; [|by rewrite app_nil_r..].
  by destruct (f a).
Qed.

(** An event of [m ≫= f] is an event of [m], or [m] ended well and it is an
    event of the continuation. *)
Lemma exec_bind_event {A B} (m : exec A) (f : A -> exec B) e :
  e ∈ trace (m ≫= f) ->
  e ∈ trace m \/ exists a, outcome m = Ok a /\ e ∈ trace (f a).
Proof.
  destruct m as [t [a| |]]; cbn; [|by left..].
  destruct (f a) as [t' r] eqn:Hf; cbn.
  rewrite elem_of_app. intros [H|H]; [by left|right].
  exists a. by rewrite Hf.
Qed.

(** ** Facts about C strings *)

Module CStrFacts.
Import CStr.

Lemma uchar_inj c1 c2 : uchar c1 = uchar c2 -> c1 = c2.
Proof.
  unfold uchar. intros Hc. apply N2Z.inj in Hc.
  rewrite <- (ascii_N_embedding c1), <- (ascii_N_embedding c2). by rewrite Hc.
Qed.

Lemma upto_nul_terminated (a r : list ascii) :
  upto_nul (a ++ NUL :: r)%list = upto_nul a.
Proof.
  induction a as [|c a IH]; cbn; [done|].
  destruct (Ascii.eqb c NUL); [done|]. by rewrite IH.
Qed.

Lemma upto_nul_no_nul b : no_nul b = true -> upto_nul b = b.
Proof.
  induction b as [|c b IH]; cbn; [done|].
  destruct (Ascii.eqb c NUL); cbn; [done|]. intros Hb. by rewrite IH.
Qed.

Lemma no_nul_take k b : no_nul b = true -> no_nul (take k b) = true.
Proof.
  revert k. induction b as [|c b IH]; intros [|k]; cbn; try done.
  destruct (Ascii.eqb c NUL); cbn; [done|]. apply IH.
Qed.

Lemma upto_nul_length b : (length (upto_nul b) <= length b)%nat.
Proof.
  induction b as [|c b IH]; cbn; [done|].
  destruct (Ascii.eqb c NUL); cbn; lia.
Qed.

(** On two buffers that each hold a terminator [strcmp] stays inside both,
    and it returns [0] exactly when the strings before the terminators are
    the same. *)
Lemma strcmp_spec s1 : forall s2,
  NUL ∈ s1 -> NUL ∈ s2 ->
  exists z, strcmp s1 s2 = Some z /\ (z = 0 <-> upto_nul s1 = upto_nul s2).
Proof.
  induction s1 as [|c1 r1 IH]; intros [|c2 r2] H1 H2;
    try (by apply elem_of_nil in H1); try (by apply elem_of_nil in H2).
  cbn. destruct (Ascii.eqb_spec c1 c2) as [<-|Hne].
  - destruct (Ascii.eqb_spec c1 NUL) as [->|Hc]; [by exists 0|].
    apply elem_of_cons in H1 as [?|H1]; [congruence|].
    apply elem_of_cons in H2 as [?|H2]; [congruence|].
    destruct (IH r2 H1 H2) as (z & Hz & Hiff). exists z. split; [done|].
    rewrite Hiff. split; [by intros ->|by intros [= ?]].
  - eexists. split; [done|]. split.
    + intros Hz. destruct Hne. apply uchar_inj. lia.
    + destruct (Ascii.eqb_spec c1 NUL), (Ascii.eqb_spec c2 NUL);
        try discriminate; congruence.
Qed.

Lemma image_terminated s : NUL ∈ image s.
Proof. unfold image. rewrite elem_of_app, list_elem_of_singleton. by right. Qed.

Lemma upto_nul_image s : upto_nul (image s) = upto_nul (bytes s).
Proof. apply upto_nul_terminated. Qed.

Lemma first_char_nonempty s :
  first_char s <> NUL -> upto_nul (bytes s) <> [].
Proof.
  destruct s as [|c s]; cbn; [done|]. intros Hc.
  by destruct (Ascii.eqb_spec c NUL).
Qed.

(** The buffer [link] after [readlink] has stored [data] in it and line 82
    has written the terminator behind it. *)
Lemma link_buffer (data : list ascii) :
  (length data <= 255)%nat ->
  <[length data := NUL]> (data ++ drop (length data) (zeroed 256))%list =
  (data ++ NUL :: replicate (255 - length data) NUL)%list.
Proof.
  intros Hlen. rewrite insert_app_r_alt by lia. f_equal.
  unfold zeroed. rewrite drop_replicate, Nat.sub_diag.
  replace (256 - length data)%nat with (S (255 - length data)) by lia.
  done.
Qed.

End CStrFacts.

(** ** Initialisation and the states a process can be in *)

Section Sequential.

Context `{V : Videodev2}.

Lemma shim_init_again w st :
  shim_init_done st = true -> shim_init w st = mret st.
Proof. unfold shim_init. by intros ->. Qed.

Lemma shim_init_first_ok w f :
  dlsym_next w "ioctl" = Some f ->
  shim_init w shim_initial = ([EvDlsym "ioctl"], Ok (configured f w)).
Proof.
  intros Hf. unfold shim_init, configured. cbn. rewrite Hf. cbn.
  by destruct (disable_requested _).
Qed.

Lemma shim_init_first_fail w :
  dlsym_next w "ioctl" = None ->
  shim_init w shim_initial = ([EvDlsym "ioctl"; EvStderr fatal_diagnostic], Aborted).
Proof. intros Hf. unfold shim_init. cbn. by rewrite Hf. Qed.

Lemma device_setting_shape o :
  device_setting o = "" \/ CStr.first_char (device_setting o) <> CStr.NUL.
Proof.
  destruct o as [s|]; cbn; [|by left].
  destruct (Ascii.eqb_spec (CStr.first_char s) CStr.NUL); [by left|by right].
Qed.

Lemma configured_ready f w : ready (configured f w).
Proof.
  unfold configured, ready.
  destruct (disable_requested _); cbn; (split; [done|]); (split; [by eexists|]).
  - by left.
  - right. split; [done|]. eexists. split; [done|]. apply device_setting_shape.
Qed.

(** The first call of a process whose environment neither disables the
    shim nor names a device leaves the shim enabled with no target. *)
Lemma first_call_enabled_no_target w f :
  dlsym_next w "ioctl" = Some f ->
  disable_requested (getenv w "V4L2_HDR_SHIM_DISABLE") = false ->
  device_setting (getenv w "V4L2_HDR_SHIM_DEVICE") = "" ->
  outcome (shim_init w shim_initial) = Ok (configured f w) /\
  shim_disabled (configured f w) = false /\
  target_unset (configured f w) = true.
Proof.
  intros Hf Hdis Hdev. rewrite (shim_init_first_ok _ _ Hf).
  unfold configured, target_unset. rewrite Hdis. cbn. by rewrite Hdev.
Qed.

(** [shim_init] never logs a forwarded call. *)
Lemma shim_init_no_forward w st fd request arg m :
  EvForward fd request arg m ∉ trace (shim_init w st).
Proof.
  unfold shim_init. destruct (shim_init_done st); cbn; [by apply not_elem_of_nil|].
  destruct (dlsym_next w "ioctl"); cbn.
  - destruct (disable_requested _); cbn;
      rewrite list_elem_of_singleton; discriminate.
  - rewrite !elem_of_cons, elem_of_nil. intros [?|[?|[]]]; discriminate.
Qed.

(** A successful [shim_init], from the initial or from a ready state,
    leaves a ready state. *)
Lemma shim_init_ok_ready w st st' :
  st = shim_initial \/ ready st ->
  outcome (shim_init w st) = Ok st' ->
  ready st'.
Proof.
  intros [->|Hr].
  - destruct (dlsym_next w "ioctl") as [f|] eqn:Hf.
    + rewrite (shim_init_first_ok _ _ Hf). cbn. intros [= <-]. apply configured_ready.
    + by rewrite (shim_init_first_fail _ Hf).
  - rewrite shim_init_again by apply Hr. cbn. by intros [= <-].
Qed.

(** The globals after a call are those its [shim_init] left. *)
Lemma ioctl_ok_state w st m fd request arg st' r m' :
  outcome (ioctl w st m fd request arg) = Ok (st', r, m') ->
  outcome (shim_init w st) = Ok st'.
Proof.
  unfold ioctl.
  destruct (shim_init w st) as [t0 [st1| |]]; cbn; [|done..].
  destruct (inspect_and_patch w st1 m fd request arg) as [t1 [m1| |]];
    cbn; [|done..].
  unfold forward. destruct (real_ioctl st1) as [f|]; cbn; [|done].
  destruct (f fd request arg m1). cbn. by intros [= <- _ _].
Qed.

Lemma run_invariant calls : forall st0 st,
  st0 = shim_initial \/ ready st0 ->
  outcome (run st0 calls) = Ok st ->
  st = shim_initial \/ ready st.
Proof.
  induction calls as [|c rest IH]; intros st0 st H0.
  - cbn. by intros [= <-].
  - cbn [run].
    destruct (ioctl (c_world c) st0 (c_mem c) (c_fd c) (c_request c) (c_arg c))
      as [t [[[st1 r] m1]| |]] eqn:Hc; cbn; [|done..].
    destruct (run st1 rest) as [t' r'] eqn:Hrun. cbn. intros ->.
    apply (IH st1); [|by rewrite Hrun].
    right. apply (shim_init_ok_ready (c_world c) st0); [done|].
    eapply ioctl_ok_state. by rewrite Hc.
Qed.

Lemma reachable_inv st : reachable st -> st = shim_initial \/ ready st.
Proof. intros [calls Hc]. eapply run_invariant; [|exact Hc]. by left. Qed.

(** *** The device matcher *)

Lemma should_patch_fd_unset w st fd :
  target_unset st = true -> should_patch_fd w st fd = mret true.
Proof.
  unfold should_patch_fd, target_unset. destruct (target_dev st) as [t|]; [|done].
  by intros ->.
Qed.

(** With a target configured the matcher ends without a fault, and it
    says yes exactly when the link resolves and the string [strcmp] sees
    in the first 255 bytes of its contents is the target. *)
Lemma should_patch_fd_target w st fd t :
  target_dev st = Some t ->
  CStr.first_char t <> CStr.NUL ->
  exists b : bool,
    should_patch_fd w st fd = mret b /\
    (b = true <->
     exists p, symlink w (proc_path fd) = Some p /\
       CStr.upto_nul (take 255 (CStr.bytes p)) = CStr.upto_nul (CStr.bytes t)).
Proof.
  intros Ht Hc. unfold should_patch_fd, readlink. rewrite Ht.
  destruct (Ascii.eqb_spec (CStr.first_char t) CStr.NUL) as [?|_]; [done|].
  change (256 - 1)%nat with 255%nat.
  destruct (symlink w (proc_path fd)) as [p|].
  2:{ exists false. split; [done|]. split; [done|]. by intros (p & ? & _). }
  set (data := take 255 (CStr.bytes p)).
  assert (Hlen : (length data <= 255)%nat) by (subst data; rewrite length_take; lia).
  destruct (Z.leb_spec (Z.of_nat (length data)) 0) as [Hz|Hz].
  - exists false. split; [done|]. split; [done|]. intros (p' & [= <-] & Heq).
    fold data in Heq. destruct data; [|cbn in Hz; lia].
    by apply CStrFacts.first_char_nonempty in Hc.
  - rewrite Nat2Z.id, CStrFacts.link_buffer by done.
    destruct (CStrFacts.strcmp_spec
                (data ++ CStr.NUL :: replicate (255 - length data) CStr.NUL)
                (CStr.image t)) as (z & -> & Hiff).
    { rewrite elem_of_app, elem_of_cons. right. by left. }
    { apply CStrFacts.image_terminated. }
    rewrite CStrFacts.upto_nul_terminated, CStrFacts.upto_nul_image in Hiff.
    exists (z =? 0). split; [done|]. rewrite Z.eqb_eq, Hiff. split.
    + intros Heq. by exists p.
    + by intros (p' & [= <-] & Heq).
Qed.

(** *** The interceptor, step by step *)

Lemma inspect_skip w st m fd request arg :
  shim_disabled st = true \/ request <> VIDIOC_S_FMT \/ arg = 0 ->
  inspect_and_patch w st m fd request arg = mret m.
Proof.
  unfold inspect_and_patch. intros [->|[Hr| ->]]; [done| |].
  - apply Z.eqb_neq in Hr. rewrite Hr. by rewrite andb_false_r.
  - by rewrite andb_false_r.
Qed.

Lemma inspect_other_type w st m fd request arg fmt :
  m !! arg = Some fmt ->
  type fmt <> V4L2_BUF_TYPE_VIDEO_OUTPUT ->
  inspect_and_patch w st m fd request arg = mret m.
Proof.
  intros Hm Ht. unfold inspect_and_patch. rewrite Hm.
  apply Z.eqb_neq in Ht. rewrite Ht. by destruct (_ && _).
Qed.

Lemma inspect_output w st m fd arg fmt (b : bool) :
  shim_disabled st = false ->
  arg <> 0 ->
  m !! arg = Some fmt ->
  type fmt = V4L2_BUF_TYPE_VIDEO_OUTPUT ->
  should_patch_fd w st fd = mret b ->
  inspect_and_patch w st m fd VIDIOC_S_FMT arg =
    mret (if b then <[arg := hdr_patch fmt]> m else m).
Proof.
  intros Hd Ha Hm Ht Hb. unfold inspect_and_patch.
  apply Z.eqb_neq in Ha. rewrite Hd, Z.eqb_refl, Ha, Hm, Ht, Hb. cbn.
  by destruct b.
Qed.

(** The inspection logs nothing. *)
Lemma should_patch_fd_trace w st fd : trace (should_patch_fd w st fd) = [].
Proof.
  unfold should_patch_fd. destruct (target_dev st) as [t|]; [|done].
  destruct (Ascii.eqb _ _); [done|].
  destruct (readlink _ _ _ _) as [n link]. destruct (n <=? 0); [done|].
  by destruct (CStr.strcmp _ _).
Qed.

Lemma inspect_trace w st m fd request arg :
  trace (inspect_and_patch w st m fd request arg) = [].
Proof.
  unfold inspect_and_patch. destruct (_ && _); [|done].
  destruct (m !! arg) as [fmt|]; [|done]. destruct (type fmt =? _); [|done].
  pose proof (should_patch_fd_trace w st fd) as Ht.
  destruct (should_patch_fd w st fd) as [t [[]| |]]; cbn in *; by subst.
Qed.

(** A call whose initialisation and inspection end well is forwarded
    once, with the memory the inspection left, and returns what the real
    function returns. *)
Lemma ioctl_forwarded w st m fd request arg st' m' f :
  outcome (shim_init w st) = Ok st' ->
  inspect_and_patch w st' m fd request arg = mret m' ->
  real_ioctl st' = Some f ->
  ioctl w st m fd request arg =
    ((trace (shim_init w st) ++ [EvForward fd request arg m'])%list,
     Ok (st', (f fd request arg m').1, (f fd request arg m').2)).
Proof.
  intros Hi Hp Hf. unfold ioctl.
  destruct (shim_init w st) as [t0 r0]. cbn in Hi. subst r0. cbn.
  rewrite Hp. cbn. unfold forward. rewrite Hf. cbn.
  by destruct (f fd request arg m').
Qed.

(** Whatever [ioctl] forwards, it forwards the caller's descriptor,
    request code and pointer, with the memory its inspection left. *)
Lemma ioctl_forward_inv w st m fd request arg fd' request' arg' m' :
  EvForward fd' request' arg' m' ∈ trace (ioctl w st m fd request arg) ->
  exists st',
    outcome (shim_init w st) = Ok st' /\
    outcome (inspect_and_patch w st' m fd request arg) = Ok m' /\
    fd' = fd /\ request' = request /\ arg' = arg.
Proof.
  unfold ioctl. intros He.
  apply exec_bind_event in He as [He|(st' & Hst & He)].
  { by apply shim_init_no_forward in He. }
  exists st'. split; [done|].
  apply exec_bind_event in He as [He|(m1 & Hm1 & He)].
  { rewrite inspect_trace in He. by apply elem_of_nil in He. }
  unfold forward in He. destruct (real_ioctl st') as [f|]; cbn in He.
  2:{ by apply elem_of_nil in He. }
  destruct (f fd request arg m1). cbn in He.
  apply list_elem_of_singleton in He. by injection He as -> -> -> ->.
Qed.

(** The state a successful [shim_init] leaves in a running process knows
    the real entry point. *)
Lemma init_ok_real w st st' :
  reachable st -> outcome (shim_init w st) = Ok st' -> is_Some (real_ioctl st').
Proof.
  intros Hr Hi. apply reachable_inv in Hr.
  by destruct (shim_init_ok_ready w st st' Hr Hi) as (_ & ? & _).
Qed.

(** *** Properties of one call *)

(** C1, as the code has it.  A set-format call with a non-null pointer to
    a video-output payload, made while the shim is enabled and no target
    device is configured, reaches the real function with the payload's
    colorspace, transfer function, encoding and quantization set to the
    enumerators the source names, whose values are 10, 7, 6 and 2. *)
Theorem set_format_output_patched w st st' m fd arg fmt :
  reachable st ->
  outcome (shim_init w st) = Ok st' ->
  shim_disabled st' = false ->
  target_unset st' = true ->
  arg <> 0 ->
  m !! arg = Some fmt ->
  type fmt = V4L2_BUF_TYPE_VIDEO_OUTPUT ->
  exists f fmt',
    real_ioctl st' = Some f /\
    fmt' = hdr_patch fmt /\
    ioctl w st m fd VIDIOC_S_FMT arg =
      ((trace (shim_init w st) ++ [EvForward fd VIDIOC_S_FMT arg (<[arg := fmt']> m)])%list,
       Ok (st', (f fd VIDIOC_S_FMT arg (<[arg := fmt']> m)).1,
                (f fd VIDIOC_S_FMT arg (<[arg := fmt']> m)).2)) /\
    colorspace (pix fmt') = 10 /\
    xfer_func (pix fmt') = 7 /\
    ycbcr_enc (pix fmt') = 6 /\
    quantization (pix fmt') = 2.
Proof.
  intros Hr Hi Hd Hu Ha Hm Ht.
  destruct (init_ok_real w st st' Hr Hi) as [f Hf].
  exists f, (hdr_patch fmt). split; [done|]. split; [done|]. split; [|done].
  apply ioctl_forwarded; [done| |done].
  by rewrite (inspect_output w st' m fd arg fmt true Hd Ha Hm Ht
                (should_patch_fd_unset w st' fd Hu)).
Qed.

(** C2.  A call whose request code is not the set-format code: the shim
    leaves the memory as it found it, and the call returns what the real
    function returns for the same descriptor, code and pointer. *)
Theorem other_request_passes_through w st st' m fd request arg :
  reachable st ->
  outcome (shim_init w st) = Ok st' ->
  request <> VIDIOC_S_FMT ->
  inspect_and_patch w st' m fd request arg = mret m /\
  exists f,
    real_ioctl st' = Some f /\
    ioctl w st m fd request arg =
      ((trace (shim_init w st) ++ [EvForward fd request arg m])%list,
       Ok (st', (f fd request arg m).1, (f fd request arg m).2)).
Proof.
  intros Hr Hi Hreq.
  assert (Hp : inspect_and_patch w st' m fd request arg = mret m)
    by (apply inspect_skip; auto).
  split; [done|].
  destruct (init_ok_real w st st' Hr Hi) as [f Hf].
  exists f. split; [done|]. by apply ioctl_forwarded.
Qed.

(** C4.  A set-format call whose payload is not of the video-output type:
    the shim leaves the memory as it found it. *)
Theorem other_type_untouched w st st' m fd arg fmt :
  reachable st ->
  outcome (shim_init w st) = Ok st' ->
  m !! arg = Some fmt ->
  type fmt <> V4L2_BUF_TYPE_VIDEO_OUTPUT ->
  inspect_and_patch w st' m fd VIDIOC_S_FMT arg = mret m /\
  exists f,
    real_ioctl st' = Some f /\
    ioctl w st m fd VIDIOC_S_FMT arg =
      ((trace (shim_init w st) ++ [EvForward fd VIDIOC_S_FMT arg m])%list,
       Ok (st', (f fd VIDIOC_S_FMT arg m).1, (f fd VIDIOC_S_FMT arg m).2)).
Proof.
  intros Hr Hi Hm Ht.
  assert (Hp : inspect_and_patch w st' m fd VIDIOC_S_FMT arg = mret m)
    by (by eapply inspect_other_type).
  split; [done|].
  destruct (init_ok_real w st st' Hr Hi) as [f Hf].
  exists f. split; [done|]. by apply ioctl_forwarded.
Qed.

(** The inspection ends in one of two ways: the memory is as it was, or
    the payload of a set-format, video-output request has been patched. *)
Lemma inspect_cases w st m fd request arg m' :
  outcome (inspect_and_patch w st m fd request arg) = Ok m' ->
  m' = m \/
  exists fmt,
    m !! arg = Some fmt /\ m' = <[arg := hdr_patch fmt]> m /\
    request = VIDIOC_S_FMT /\ type fmt = V4L2_BUF_TYPE_VIDEO_OUTPUT /\
    outcome (should_patch_fd w st fd) = Ok true.
Proof.
  unfold inspect_and_patch.
  destruct (negb (shim_disabled st)); cbn; [|intros [= <-]; by left].
  destruct (Z.eqb_spec request VIDIOC_S_FMT) as [->|]; cbn; [|intros [= <-]; by left].
  destruct (negb (arg =? 0)); cbn; [|intros [= <-]; by left].
  destruct (m !! arg) as [fmt|]; [|done].
  destruct (Z.eqb_spec (type fmt) V4L2_BUF_TYPE_VIDEO_OUTPUT) as [Ht|];
    [|intros [= <-]; by left].
  destruct (should_patch_fd w st fd) as [t [[]| |]]; cbn; try done.
  - intros [= <-]. right. by exists fmt.
  - intros [= <-]. by left.
Qed.

(** Where the matcher says no, the inspection changes nothing. *)
Lemma inspect_no_match w st m fd request arg :
  should_patch_fd w st fd = mret false ->
  (request = VIDIOC_S_FMT -> arg <> 0 -> is_Some (m !! arg)) ->
  inspect_and_patch w st m fd request arg = mret m.
Proof.
  intros Hno Hpayload.
  destruct (shim_disabled st) eqn:Hd; [apply inspect_skip; auto|].
  destruct (Z.eq_dec request VIDIOC_S_FMT) as [->|]; [|apply inspect_skip; auto].
  destruct (Z.eq_dec arg 0) as [->|Ha]; [apply inspect_skip; auto|].
  destruct (Hpayload eq_refl Ha) as [fmt Hm].
  destruct (Z.eq_dec (type fmt) V4L2_BUF_TYPE_VIDEO_OUTPUT) as [Hty|Hty].
  - by rewrite (inspect_output w st m fd arg fmt false Hd Ha Hm Hty Hno).
  - by eapply inspect_other_type.
Qed.

(** C6.  Whatever a call forwards to the real function, the memory it
    forwards is the caller's memory unchanged, or the caller's memory with
    the payload's colorspace, transfer function, encoding and quantization
    all four replaced by the one fixed combination, 10, 7, 6 and 2, and
    every other field kept. *)
Theorem patch_all_or_nothing w st m fd request arg fd' request' arg' m' :
  EvForward fd' request' arg' m' ∈ trace (ioctl w st m fd request arg) ->
  m' = m \/
  exists fmt,
    m !! arg = Some fmt /\
    m' = <[arg :=
            {| type := type fmt;
               pix := {| width := width (pix fmt);
                         height := height (pix fmt);
                         pixelformat := pixelformat (pix fmt);
                         field := field (pix fmt);
                         bytesperline := bytesperline (pix fmt);
                         sizeimage := sizeimage (pix fmt);
                         colorspace := 10;
                         priv := priv (pix fmt);
                         flags := flags (pix fmt);
                         ycbcr_enc := 6;
                         quantization := 2;
                         xfer_func := 7 |};
               raw_tail := raw_tail fmt |}]> m.
Proof.
  intros He. apply ioctl_forward_inv in He as (st' & _ & Hp & _).
  apply inspect_cases in Hp as [->|(fmt & Hm & -> & _)]; [by left|].
  right. by exists fmt.
Qed.

(** C7.  With a target device configured, a descriptor whose resolution
    fails is no match: the matcher answers no without a fault, the memory
    is left as it was, and the call is forwarded and returns what the real
    function returns. *)
Theorem resolution_failure_is_no_match w st st' m fd request arg t :
  reachable st ->
  outcome (shim_init w st) = Ok st' ->
  target_dev st' = Some t ->
  CStr.first_char t <> CStr.NUL ->
  symlink w (proc_path fd) = None \/ symlink w (proc_path fd) = Some "" ->
  (request = VIDIOC_S_FMT -> arg <> 0 -> is_Some (m !! arg)) ->
  should_patch_fd w st' fd = mret false /\
  inspect_and_patch w st' m fd request arg = mret m /\
  exists f,
    real_ioctl st' = Some f /\
    ioctl w st m fd request arg =
      ((trace (shim_init w st) ++ [EvForward fd request arg m])%list,
       Ok (st', (f fd request arg m).1, (f fd request arg m).2)).
Proof.
  intros Hr Hi Ht Hc Hfail Hpayload.
  assert (Hno : should_patch_fd w st' fd = mret false).
  { destruct (should_patch_fd_target w st' fd t Ht Hc) as ([] & Hb & Hiff); [|done].
    destruct Hiff as [Hiff _]. destruct (Hiff eq_refl) as (p & Hp & Heq).
    destruct Hfail as [Hf|Hf]; rewrite Hf in Hp; [done|].
    injection Hp as <-. cbn in Heq. symmetry in Heq.
    by apply CStrFacts.first_char_nonempty in Hc. }
  assert (Hp : inspect_and_patch w st' m fd request arg = mret m)
    by (by apply inspect_no_match).
  split; [done|]. split; [done|].
  destruct (init_ok_real w st st' Hr Hi) as [f Hf].
  exists f. split; [done|]. by apply ioctl_forwarded.
Qed.

(** C3, as the code has it.  For a set-format, video-output request made
    while a non-empty target is configured, the payload is patched exactly
    when the descriptor resolves and the first 255 bytes of the resolved
    path are the target path; so for a resolved path of at most 255 bytes,
    exactly when it is the target path. *)
Theorem patch_iff_resolved_prefix_is_target w st st' m fd arg fmt t :
  reachable st ->
  outcome (shim_init w st) = Ok st' ->
  target_dev st' = Some t ->
  t <> "" ->
  CStr.no_nul (CStr.bytes t) = true ->
  (forall p, symlink w (proc_path fd) = Some p -> CStr.no_nul (CStr.bytes p) = true) ->
  arg <> 0 ->
  m !! arg = Some fmt ->
  type fmt = V4L2_BUF_TYPE_VIDEO_OUTPUT ->
  exists (patched : bool) f,
    (patched = true <->
     exists p, symlink w (proc_path fd) = Some p /\
               take 255 (CStr.bytes p) = CStr.bytes t) /\
    (forall p, symlink w (proc_path fd) = Some p ->
               (length (CStr.bytes p) <= 255)%nat ->
               (patched = true <-> p = t)) /\
    should_patch_fd w st' fd = mret patched /\
    real_ioctl st' = Some f /\
    let m' := if patched then <[arg := hdr_patch fmt]> m else m in
    ioctl w st m fd VIDIOC_S_FMT arg =
      ((trace (shim_init w st) ++ [EvForward fd VIDIOC_S_FMT arg m'])%list,
       Ok (st', (f fd VIDIOC_S_FMT arg m').1, (f fd VIDIOC_S_FMT arg m').2)).
Proof.
  intros Hr Hi Ht Hne Hnt Hnp Ha Hm Hty.
  assert (Hc : CStr.first_char t <> CStr.NUL).
  { destruct t as [|c t']; [done|]. cbn in *.
    by destruct (Ascii.eqb_spec c CStr.NUL). }
  destruct (should_patch_fd_target w st' fd t Ht Hc) as (b & Hb & Hiff).
  destruct (init_ok_real w st st' Hr Hi) as [f Hf].
  assert (Hd : shim_disabled st' = false).
  { destruct (shim_init_ok_ready w st st' (reachable_inv _ Hr) Hi)
      as (_ & _ & [[_ Hnone]|[Hd _]]); [congruence|done]. }
  assert (Hiff' : b = true <->
    exists p, symlink w (proc_path fd) = Some p /\
              take 255 (CStr.bytes p) = CStr.bytes t).
  { rewrite Hiff. split; intros (p & Hp & Heq); exists p; (split; [done|]).
    - rewrite !CStrFacts.upto_nul_no_nul in Heq;
        auto using CStrFacts.no_nul_take.
    - rewrite !CStrFacts.upto_nul_no_nul; auto using CStrFacts.no_nul_take. }
  exists b, f. split; [done|]. split; [|split; [done|split; [done|]]].
  - intros p Hp Hlen. rewrite Hiff'. split.
    + intros (p' & Hp' & Heq). rewrite Hp in Hp'. injection Hp' as <-.
      rewrite take_ge in Heq by done.
      rewrite <- (string_of_list_ascii_of_string p),
              <- (string_of_list_ascii_of_string t).
      unfold CStr.bytes in Heq. by rewrite Heq.
    + intros ->. exists t. split; [done|]. by rewrite take_ge.
  - cbn zeta. apply ioctl_forwarded; [done| |done].
    by rewrite (inspect_output w st' m fd arg fmt b Hd Ha Hm Hty Hb).
Qed.

(** C10.  A configured target whose string is longer than 255 bytes
    matches no descriptor: the matcher answers no whatever the descriptor
    resolves to, and no request is patched. *)
Theorem long_target_never_matches w st fd t :
  target_dev st = Some t ->
  (255 < CStr.strlen t)%nat ->
  should_patch_fd w st fd = mret false /\
  forall m request arg,
    (request = VIDIOC_S_FMT -> arg <> 0 -> is_Some (m !! arg)) ->
    inspect_and_patch w st m fd request arg = mret m.
Proof.
  intros Ht Hlen.
  assert (Hc : CStr.first_char t <> CStr.NUL).
  { unfold CStr.strlen in Hlen. destruct t as [|c t']; cbn in *; [lia|].
    destruct (Ascii.eqb_spec c CStr.NUL); cbn in *; [lia|done]. }
  assert (Hno : should_patch_fd w st fd = mret false).
  { destruct (should_patch_fd_target w st fd t Ht Hc) as ([] & Hb & Hiff); [|done].
    destruct Hiff as [Hiff _]. destruct (Hiff eq_refl) as (p & _ & Heq).
    pose proof (CStrFacts.upto_nul_length (take 255 (CStr.bytes p))) as Hle.
    rewrite Heq, length_take in Hle. unfold CStr.strlen in Hlen. lia. }
  split; [done|]. intros m request arg Hpayload. by apply inspect_no_match.
Qed.

(** *** Properties of a whole run *)

Lemma ioctl_disabled w st m fd request arg f :
  shim_init_done st = true ->
  real_ioctl st = Some f ->
  shim_disabled st = true ->
  ioctl w st m fd request arg =
    ([EvForward fd request arg m],
     Ok (st, (f fd request arg m).1, (f fd request arg m).2)).
Proof.
  intros Hdone Hf Hd.
  rewrite (ioctl_forwarded w st m fd request arg st m f); rewrite ?shim_init_again;
    try done.
  apply inspect_skip. by left.
Qed.

Lemma run_disabled st f calls :
  shim_init_done st = true ->
  real_ioctl st = Some f ->
  shim_disabled st = true ->
  run st calls = (pass_through <$> calls, Ok st).
Proof.
  intros Hdone Hf Hd. induction calls as [|c rest IH]; [done|].
  cbn [run]. rewrite (ioctl_disabled _ _ _ _ _ _ f) by done. cbn.
  by rewrite IH.
Qed.

(** C5.  When the first call finds the disable switch set to a value that
    starts with ['1'], every call of the run, the first included, is
    passed to the real function with the caller's memory as the caller
    supplied it, and the shim stays disabled. *)
Theorem disabled_run_passes_through c rest f :
  dlsym_next (c_world c) "ioctl" = Some f ->
  disable_requested (getenv (c_world c) "V4L2_HDR_SHIM_DISABLE") = true ->
  run shim_initial (c :: rest) =
    (EvDlsym "ioctl" :: (pass_through <$> c :: rest),
     Ok {| real_ioctl := Some f; target_dev := None;
           shim_disabled := true; shim_init_done := true |}).
Proof.
  intros Hf Hd. cbn [run].
  set (st := {| real_ioctl := Some f; target_dev := None;
                shim_disabled := true; shim_init_done := true |}).
  assert (Hi : shim_init (c_world c) shim_initial = ([EvDlsym "ioctl"], Ok st)).
  { rewrite (shim_init_first_ok _ f Hf). unfold configured. by rewrite Hd. }
  rewrite (ioctl_forwarded (c_world c) shim_initial (c_mem c) (c_fd c)
             (c_request c) (c_arg c) st (c_mem c) f);
    [|by rewrite Hi|apply inspect_skip; by left|done].
  rewrite Hi. cbn. by rewrite (run_disabled st f rest).
Qed.

(** C8.  When [dlsym] finds no real entry point during the first call,
    the run ends there: the lookup, the line
    "[v4l2-hdr-shim] FATAL: cannot resolve ioctl via RTLD_NEXT" on the error
    stream, [abort], and no call is ever forwarded. *)
Theorem unresolved_run_aborts c rest :
  dlsym_next (c_world c) "ioctl" = None ->
  run shim_initial (c :: rest) =
    ([EvDlsym "ioctl";
      EvStderr ("[v4l2-hdr-shim] FATAL: cannot resolve ioctl via RTLD_NEXT"
                +:+ String "010" "")],
     Aborted).
Proof.
  intros Hf. cbn [run]. unfold ioctl.
  by rewrite (shim_init_first_fail _ Hf).
Qed.

(** *** Initialisation in a run of one thread *)

Lemma resolutions_app t1 t2 :
  resolutions (t1 ++ t2) = (resolutions t1 + resolutions t2)%nat.
Proof. unfold resolutions. by rewrite List.filter_app, length_app. Qed.

Lemma shim_init_resolutions w st :
  resolutions (trace (shim_init w st)) = if shim_init_done st then 0%nat else 1%nat.
Proof.
  unfold shim_init. destruct (shim_init_done st); [done|].
  cbn. destruct (dlsym_next w "ioctl"); [|done].
  cbn. by destruct (disable_requested _).
Qed.

Lemma forward_resolutions st m fd request arg :
  resolutions (trace (forward st m fd request arg)) = 0%nat.
Proof. unfold forward. by destruct (real_ioctl st). Qed.

Lemma ioctl_resolutions w st m fd request arg :
  resolutions (trace (ioctl w st m fd request arg)) =
    if shim_init_done st then 0%nat else 1%nat.
Proof.
  unfold ioctl. rewrite exec_bind_trace, resolutions_app, shim_init_resolutions.
  destruct (outcome (shim_init w st)) as [st'| |]; [|by rewrite Nat.add_0_r..].
  rewrite exec_bind_trace, inspect_trace. cbn [app].
  destruct (outcome (inspect_and_patch w st' m fd request arg)) as [m1| |];
    [|by rewrite Nat.add_0_r..].
  rewrite exec_bind_trace, resolutions_app, forward_resolutions.
  destruct (outcome (forward st' m1 fd request arg)) as [[r m2]| |];
    by rewrite Nat.add_0_r.
Qed.

Lemma shim_init_ok_done w st st' :
  outcome (shim_init w st) = Ok st' -> shim_init_done st' = true.
Proof.
  unfold shim_init. destruct (shim_init_done st) eqn:Hd; cbn.
  - by intros [= <-].
  - destruct (dlsym_next w "ioctl"); cbn; [|done].
    destruct (disable_requested _); cbn; by intros [= <-].
Qed.

Lemma run_done_resolutions calls : forall st,
  shim_init_done st = true -> resolutions (trace (run st calls)) = 0%nat.
Proof.
  induction calls as [|c rest IH]; intros st Hd; [done|].
  cbn [run]. rewrite exec_bind_trace, resolutions_app, ioctl_resolutions, Hd.
  destruct (outcome (ioctl _ _ _ _ _ _)) as [[[st1 r] m1]| |] eqn:Hc; [|done..].
  apply IH. eapply shim_init_ok_done, ioctl_ok_state, Hc.
Qed.

(** In a run of one thread the real entry point is looked up once: during
    the first call, and never again. *)
Lemma sequential_run_resolves_once c rest :
  resolutions (trace (run shim_initial (c :: rest))) = 1%nat.
Proof.
  cbn [run]. rewrite exec_bind_trace, resolutions_app, ioctl_resolutions.
  cbn [shim_init_done shim_initial].
  destruct (outcome (ioctl _ _ _ _ _ _)) as [[[st1 r] m1]| |] eqn:Hc; [|done..].
  rewrite run_done_resolutions; [done|].
  eapply shim_init_ok_done, ioctl_ok_state, Hc.
Qed.

End Sequential.

(** ** Threads: what the globals allow *)

Section ThreadFacts.

Context `{V : Videodev2}.

(** A thread that runs alone does what [ioctl] does: the step model and
    the function agree on the events, the result and the globals. *)
Lemma single_thread_is_ioctl st c :
  interleave (replicate 8 0%nat) {| globals := st; threads := [spawn c] |} =
  ioctl (c_world c) st (c_mem c) (c_fd c) (c_request c) (c_arg c) ≫=
    λ '(st', r, m'),
      mret {| globals := st';
              threads := [{| t_pc := Returned r; t_call := c; t_mem := m' |}] |}.
Proof.
  destruct c as [w m fd req arg], st as [real tgt dis done].
  unfold ioctl, shim_init, spawn.
  destruct done; cbn -[inspect_and_patch].
  - destruct (inspect_and_patch _ _ _ _ _ _) as [t [m1| |]]; cbn; [|done..].
    unfold forward. cbn. destruct real as [f|]; cbn; [|by rewrite !app_nil_r].
    destruct (f fd req arg m1); cbn. by rewrite ?app_nil_r.
  - destruct (dlsym_next w "ioctl") as [f|]; cbn -[inspect_and_patch]; [|done].
    destruct (disable_requested _); cbn -[inspect_and_patch].
    + destruct (inspect_and_patch _ _ _ _ _ _) as [t [m1| |]]; cbn; [|done..].
      destruct (f fd req arg m1); cbn. by rewrite ?app_nil_r.
    + destruct (inspect_and_patch _ _ _ _ _ _) as [t [m1| |]]; cbn; [|done..].
      destruct (f fd req arg m1); cbn. by rewrite ?app_nil_r.
Qed.

End ThreadFacts.

(** C9.  Two threads that make their first calls at the same time, in a
    process whose environment sets the disable switch to 1.  Scheduled
    alternately, both pass the test of line 49 before either has set the
    flag, and the real entry point is looked up twice.  When the second
    thread enters after the first has set the flag and resolved the symbol
    but not yet read the environment, it finds the shim enabled with no
    target: its payload is patched and forwarded although the switch is set.
    When it enters before the first has resolved the symbol, it calls
    through the null [real_ioctl]. *)
Theorem concurrent_first_calls_race :
  let w := Scenario.world {[ "V4L2_HDR_SHIM_DISABLE" := "1" ]} Scenario.nothing_open in
  let S_FMT := @VIDIOC_S_FMT Scenario.linux_amd64 in
  let c := Scenario.call w 2 3 S_FMT in
  let M := boot [c; c] in
  resolutions (trace (interleave (V := Scenario.linux_amd64) [0; 1; 0; 1; 0; 1]%nat M))
    = 2%nat /\
  trace (interleave (V := Scenario.linux_amd64) [0; 0; 0; 1; 1; 1]%nat M)
    = [EvDlsym "ioctl";
       EvForward 3 S_FMT 100 {[ 100 := hdr_patch (Scenario.writer_format 2) ]}] /\
  outcome (interleave (V := Scenario.linux_amd64) [0; 0; 1; 1; 1]%nat M) = Segv.
Proof. vm_compute. by repeat split. Qed.

(** ** The properties at sample processes *)

Module Samples.
Import Scenario.

#[local] Existing Instance linux_amd64.

(** The counterexample to C3 as the specification words it.  With a
    target of 256 bytes, a descriptor that resolves to that very path is
    not patched; with a target of 255 bytes, a descriptor that resolves to
    a different, longer path is patched. *)
Lemma path_equality_does_not_decide_patching :
  let short_path := string_of_list_ascii (replicate 255 "a"%char) in
  let m := payload_at_100 2 in
  let m_patched := <[100 := hdr_patch (writer_format 2)]> m in
  let w1 := world {[ "V4L2_HDR_SHIM_DEVICE" := long_path ]} (fd3_on long_path) in
  let w2 := world {[ "V4L2_HDR_SHIM_DEVICE" := short_path ]} (fd3_on long_path) in
  m_patched <> m /\
  (target_dev (configured driver w1) = Some long_path /\
   symlink w1 (proc_path 3) = Some long_path /\
   ioctl w1 shim_initial m 3 VIDIOC_S_FMT 100 =
     ([EvDlsym "ioctl"; EvForward 3 VIDIOC_S_FMT 100 m],
      Ok (configured driver w1, 0, m))) /\
  (target_dev (configured driver w2) = Some short_path /\
   symlink w2 (proc_path 3) = Some long_path /\
   long_path <> short_path /\
   ioctl w2 shim_initial m 3 VIDIOC_S_FMT 100 =
     ([EvDlsym "ioctl"; EvForward 3 VIDIOC_S_FMT 100 m_patched],
      Ok (configured driver w2, 0, m_patched))).
Proof.
  cbv zeta. split; [|split].
  - intros Heq. apply (f_equal (lookup 100)) in Heq. vm_compute in Heq.
    discriminate.
  - vm_compute. by repeat split.
  - split; [by vm_compute|]. split; [by vm_compute|]. split.
    + intros Heq. apply (f_equal String.length) in Heq. vm_compute in Heq.
      discriminate.
    + by vm_compute.
Qed.

(** The counterexample to C1 as the specification words it.  In the
    writer's first call, with no configuration in the environment, the
    payload is patched, and the values that reach the real function are 10,
    7 and 6, not the 9, 6 and 10 of the claim; only the quantization, 2, is
    as stated. *)
Lemma written_values_are_not_9_6_10 :
  let w := world ∅ nothing_open in
  let m := payload_at_100 2 in
  shim_disabled (configured driver w) = false /\
  target_unset (configured driver w) = true /\
  m !! 100 = Some (writer_format 2) /\
  type (writer_format 2) = V4L2_BUF_TYPE_VIDEO_OUTPUT /\
  exists fmt',
    ioctl w shim_initial m 3 VIDIOC_S_FMT 100 =
      ([EvDlsym "ioctl"; EvForward 3 VIDIOC_S_FMT 100 {[ 100 := fmt' ]}],
       Ok (configured driver w, 0, {[ 100 := fmt' ]})) /\
    colorspace (pix fmt') = 10 /\ colorspace (pix fmt') <> 9 /\
    xfer_func (pix fmt') = 7 /\ xfer_func (pix fmt') <> 6 /\
    ycbcr_enc (pix fmt') = 6 /\ ycbcr_enc (pix fmt') <> 10 /\
    quantization (pix fmt') = 2.
Proof.
  cbv zeta. repeat (split; [reflexivity|]).
  exists (hdr_patch (writer_format 2)).
  split; [by vm_compute|].
  repeat split; try reflexivity; intros Hne; vm_compute in Hne; discriminate Hne.
Qed.

(** A writer's first call, no configuration in the environment. *)
Lemma set_format_output_patched_witness :
  let w := world ∅ nothing_open in
  let m := payload_at_100 2 in
  exists f fmt',
    real_ioctl (configured driver w) = Some f /\
    fmt' = hdr_patch (writer_format 2) /\
    ioctl w shim_initial m 3 VIDIOC_S_FMT 100 =
      ((trace (shim_init w shim_initial) ++
        [EvForward 3 VIDIOC_S_FMT 100 (<[100 := fmt']> m)])%list,
       Ok (configured driver w,
           (f 3 VIDIOC_S_FMT 100 (<[100 := fmt']> m)).1,
           (f 3 VIDIOC_S_FMT 100 (<[100 := fmt']> m)).2)) /\
    colorspace (pix fmt') = 10 /\
    xfer_func (pix fmt') = 7 /\
    ycbcr_enc (pix fmt') = 6 /\
    quantization (pix fmt') = 2.
Proof.
  intros w m.
  apply (set_format_output_patched w shim_initial (configured driver w) m 3 100
           (writer_format 2)).
  - exists []. reflexivity.
  - reflexivity.
  - reflexivity.
  - reflexivity.
  - lia.
  - reflexivity.
  - reflexivity.
Defined.

(** A capability query (request code [0x80685600]) on the same process. *)
Lemma other_request_passes_through_witness :
  let w := world ∅ nothing_open in
  let m := payload_at_100 2 in
  inspect_and_patch w (configured driver w) m 3 0x80685600 100 = mret m /\
  exists f,
    real_ioctl (configured driver w) = Some f /\
    ioctl w shim_initial m 3 0x80685600 100 =
      ((trace (shim_init w shim_initial) ++ [EvForward 3 0x80685600 100 m])%list,
       Ok (configured driver w, (f 3 0x80685600 100 m).1, (f 3 0x80685600 100 m).2)).
Proof.
  intros w m.
  apply (other_request_passes_through w shim_initial (configured driver w) m 3
           0x80685600 100).
  - exists []. reflexivity.
  - reflexivity.
  - vm_compute. discriminate.
Defined.

(** A set-format call on the capture side (type 1). *)
Lemma other_type_untouched_witness :
  let w := world ∅ nothing_open in
  let m := payload_at_100 1 in
  inspect_and_patch w (configured driver w) m 3 VIDIOC_S_FMT 100 = mret m /\
  exists f,
    real_ioctl (configured driver w) = Some f /\
    ioctl w shim_initial m 3 VIDIOC_S_FMT 100 =
      ((trace (shim_init w shim_initial) ++ [EvForward 3 VIDIOC_S_FMT 100 m])%list,
       Ok (configured driver w, (f 3 VIDIOC_S_FMT 100 m).1, (f 3 VIDIOC_S_FMT 100 m).2)).
Proof.
  intros w m.
  apply (other_type_untouched w shim_initial (configured driver w) m 3 100
           (writer_format 1)).
  - exists []. reflexivity.
  - reflexivity.
  - reflexivity.
  - vm_compute. discriminate.
Defined.

(** Three calls of a process started with [V4L2_HDR_SHIM_DISABLE=1]. *)
Lemma disabled_run_passes_through_witness :
  let w := world {[ "V4L2_HDR_SHIM_DISABLE" := "1" ]} (fd3_on "/dev/video5") in
  let c := call w 2 3 VIDIOC_S_FMT in
  run shim_initial (c :: [c; call w 1 3 VIDIOC_S_FMT]) =
    (EvDlsym "ioctl" :: (pass_through <$> c :: [c; call w 1 3 VIDIOC_S_FMT]),
     Ok {| real_ioctl := Some driver; target_dev := None;
           shim_disabled := true; shim_init_done := true |}).
Proof.
  intros w c.
  apply (disabled_run_passes_through c [c; call w 1 3 VIDIOC_S_FMT] driver).
  - reflexivity.
  - reflexivity.
Defined.

(** The forwarded call of the writer's first call. *)
Lemma patch_all_or_nothing_witness :
  let w := world ∅ nothing_open in
  let m := payload_at_100 2 in
  let m' := <[100 := hdr_patch (writer_format 2)]> m in
  m' = m \/
  exists fmt,
    m !! 100 = Some fmt /\
    m' = <[100 :=
            {| type := type fmt;
               pix := {| width := width (pix fmt);
                         height := height (pix fmt);
                         pixelformat := pixelformat (pix fmt);
                         field := field (pix fmt);
                         bytesperline := bytesperline (pix fmt);
                         sizeimage := sizeimage (pix fmt);
                         colorspace := 10;
                         priv := priv (pix fmt);
                         flags := flags (pix fmt);
                         ycbcr_enc := 6;
                         quantization := 2;
                         xfer_func := 7 |};
               raw_tail := raw_tail fmt |}]> m.
Proof.
  intros w m m'.
  apply (patch_all_or_nothing w shim_initial m 3 VIDIOC_S_FMT 100
           3 VIDIOC_S_FMT 100 m').
  vm_compute. apply list_elem_of_further, list_elem_of_here.
Defined.

(** Target [/dev/video5]; descriptor 3 does not resolve. *)
Lemma resolution_failure_is_no_match_witness :
  let w := world {[ "V4L2_HDR_SHIM_DEVICE" := "/dev/video5" ]} nothing_open in
  let m := payload_at_100 2 in
  should_patch_fd w (configured driver w) 3 = mret false /\
  inspect_and_patch w (configured driver w) m 3 VIDIOC_S_FMT 100 = mret m /\
  exists f,
    real_ioctl (configured driver w) = Some f /\
    ioctl w shim_initial m 3 VIDIOC_S_FMT 100 =
      ((trace (shim_init w shim_initial) ++ [EvForward 3 VIDIOC_S_FMT 100 m])%list,
       Ok (configured driver w, (f 3 VIDIOC_S_FMT 100 m).1, (f 3 VIDIOC_S_FMT 100 m).2)).
Proof.
  intros w m.
  apply (resolution_failure_is_no_match w shim_initial (configured driver w) m 3
           VIDIOC_S_FMT 100 "/dev/video5").
  - exists []. reflexivity.
  - reflexivity.
  - reflexivity.
  - vm_compute. discriminate.
  - left. reflexivity.
  - intros _ _. exists (writer_format 2). reflexivity.
Defined.

(** A process in which [dlsym] finds nothing. *)
Lemma unresolved_run_aborts_witness :
  let c := call world_unresolved 2 3 VIDIOC_S_FMT in
  run shim_initial (c :: [c]) =
    ([EvDlsym "ioctl";
      EvStderr ("[v4l2-hdr-shim] FATAL: cannot resolve ioctl via RTLD_NEXT"
                +:+ String "010" "")],
     Aborted).
Proof.
  intros c. apply (unresolved_run_aborts c [c]). reflexivity.
Defined.

(** Target [/dev/video5]; descriptor 3 is open on it. *)
Lemma patch_iff_resolved_prefix_is_target_witness :
  let w := world {[ "V4L2_HDR_SHIM_DEVICE" := "/dev/video5" ]} (fd3_on "/dev/video5") in
  let m := payload_at_100 2 in
  exists (patched : bool) f,
    (patched = true <->
     exists p, symlink w (proc_path 3) = Some p /\
               take 255 (CStr.bytes p) = CStr.bytes "/dev/video5") /\
    (forall p, symlink w (proc_path 3) = Some p ->
               (length (CStr.bytes p) <= 255)%nat ->
               (patched = true <-> p = "/dev/video5")) /\
    should_patch_fd w (configured driver w) 3 = mret patched /\
    real_ioctl (configured driver w) = Some f /\
    let m' := if patched then <[100 := hdr_patch (writer_format 2)]> m else m in
    ioctl w shim_initial m 3 VIDIOC_S_FMT 100 =
      ((trace (shim_init w shim_initial) ++ [EvForward 3 VIDIOC_S_FMT 100 m'])%list,
       Ok (configured driver w, (f 3 VIDIOC_S_FMT 100 m').1,
           (f 3 VIDIOC_S_FMT 100 m').2)).
Proof.
  intros w m.
  apply (patch_iff_resolved_prefix_is_target w shim_initial (configured driver w) m 3
           100 (writer_format 2) "/dev/video5").
  - exists []. reflexivity.
  - reflexivity.
  - reflexivity.
  - discriminate.
  - reflexivity.
  - intros p Hp. vm_compute in Hp. injection Hp as <-. reflexivity.
  - lia.
  - reflexivity.
  - reflexivity.
Defined.

(** A target of 256 bytes, and a descriptor open on that very path. *)
Lemma long_target_never_matches_witness :
  let w := world {[ "V4L2_HDR_SHIM_DEVICE" := long_path ]} (fd3_on long_path) in
  should_patch_fd w (configured driver w) 3 = mret false /\
  forall m request arg,
    (request = VIDIOC_S_FMT -> arg <> 0 -> is_Some (m !! arg)) ->
    inspect_and_patch w (configured driver w) m 3 request arg = mret m.
Proof.
  intros w.
  apply (long_target_never_matches w (configured driver w) 3 long_path).
  - reflexivity.
  - vm_compute. lia.
Defined.

(** The scenarios of the specification's section 8. *)

Example scenario_output_no_target :
  ioctl (world ∅ nothing_open) shim_initial (payload_at_100 2) 3 VIDIOC_S_FMT 100 =
    ([EvDlsym "ioctl";
      EvForward 3 VIDIOC_S_FMT 100 {[ 100 := hdr_patch (writer_format 2) ]}],
     Ok (configured driver (world ∅ nothing_open), 0,
         {[ 100 := hdr_patch (writer_format 2) ]})).
Proof. by vm_compute. Qed.

Example scenario_capture :
  trace (ioctl (world ∅ nothing_open) shim_initial (payload_at_100 1) 3 VIDIOC_S_FMT 100) =
    [EvDlsym "ioctl"; EvForward 3 VIDIOC_S_FMT 100 (payload_at_100 1)].
Proof. by vm_compute. Qed.

Example scenario_disabled :
  trace (ioctl (world {[ "V4L2_HDR_SHIM_DISABLE" := "1" ]} nothing_open)
           shim_initial (payload_at_100 2) 3 VIDIOC_S_FMT 100) =
    [EvDlsym "ioctl"; EvForward 3 VIDIOC_S_FMT 100 (payload_at_100 2)].
Proof. by vm_compute. Qed.

Example scenario_other_device :
  trace (ioctl (world {[ "V4L2_HDR_SHIM_DEVICE" := "/dev/video5" ]} (fd3_on "/dev/video7"))
           shim_initial (payload_at_100 2) 3 VIDIOC_S_FMT 100) =
    [EvDlsym "ioctl"; EvForward 3 VIDIOC_S_FMT 100 (payload_at_100 2)].
Proof. by vm_compute. Qed.

Example scenario_target_device :
  trace (ioctl (world {[ "V4L2_HDR_SHIM_DEVICE" := "/dev/video5" ]} (fd3_on "/dev/video5"))
           shim_initial (payload_at_100 2) 3 VIDIOC_S_FMT 100) =
    [EvDlsym "ioctl";
     EvForward 3 VIDIOC_S_FMT 100 {[ 100 := hdr_patch (writer_format 2) ]}].
Proof. by vm_compute. Qed.

(** The disable switch is read by its first character only: [1] and
    anything that starts with it disable the shim, other spellings do
    not. *)
Example disable_switch_values :
  disable_requested (Some "1") = true /\
  disable_requested (Some "10") = true /\
  disable_requested (Some "0") = false /\
  disable_requested (Some "yes") = false /\
  disable_requested (Some "") = false /\
  disable_requested None = false.
Proof. by repeat split. Qed.

End Samples.

Example snprintf_fd3 : CStr.snprintf_sd 64 "/proc/self/fd/" 3 = "/proc/self/fd/3".
Proof. vm_compute. reflexivity. Qed.
Example snprintf_fdm1 : CStr.snprintf_sd 64 "/proc/self/fd/" (-1) = "/proc/self/fd/-1".
Proof. vm_compute. reflexivity. Qed.
Example snprintf_fd0 : CStr.snprintf_sd 64 "/proc/self/fd/" 0 = "/proc/self/fd/0".
Proof. vm_compute. reflexivity. Qed.

(** ** Further properties of the shim *)

Lemma exec_bind_outcome {A B} (m : exec A) (f : A -> exec B) :
  outcome (m ≫= f) =
    match outcome m with
    | Ok a => outcome (f a)
    | Aborted => Aborted
    | Segv => Segv
    end.
Proof. destruct m as [t [a| |]]; cbn; [|done..]. by destruct (f a). Qed.

Section Further.

Context `{V : Videodev2}.

(** *** The configuration is a snapshot *)

Lemma run_done_state calls : forall st0 st,
  shim_init_done st0 = true ->
  outcome (run st0 calls) = Ok st ->
  st = st0.
Proof.
  induction calls as [|c rest IH]; intros st0 st Hd.
  - cbn. by intros [= <-].
  - cbn [run]. rewrite exec_bind_outcome.
    destruct (outcome (ioctl _ _ _ _ _ _)) as [[[st1 r] m1]| |] eqn:Hc; [|done..].
    apply ioctl_ok_state in Hc. rewrite shim_init_again in Hc by done.
    injection Hc as <-. by apply IH.
Qed.

(** The real entry point and the disable flag at the end of a run are the
    ones the first call's [shim_init] set: no later call writes them,
    whatever the environment and the dynamic linker say by then. *)
Theorem run_keeps_entry_point_and_switch c rest st :
  outcome (run shim_initial (c :: rest)) = Ok st ->
  exists st1,
    outcome (shim_init (c_world c) shim_initial) = Ok st1 /\
    real_ioctl st = real_ioctl st1 /\
    shim_disabled st = shim_disabled st1 /\
    shim_init_done st = true.
Proof.
  cbn [run]. rewrite exec_bind_outcome.
  destruct (outcome (ioctl _ _ _ _ _ _)) as [[[st1 r] m1]| |] eqn:Hc; [|done..].
  apply ioctl_ok_state in Hc. intros Hrun. exists st1. split; [done|].
  assert (Hd : shim_init_done st1 = true) by (by eapply shim_init_ok_done).
  by rewrite (run_done_state rest st1 st Hd Hrun).
Qed.

(** The matcher looks at the world only through the link of the
    descriptor. *)
Lemma should_patch_fd_ext w w' st fd :
  symlink w (proc_path fd) = symlink w' (proc_path fd) ->
  should_patch_fd w st fd = should_patch_fd w' st fd.
Proof. intros Hs. unfold should_patch_fd, readlink. by rewrite Hs. Qed.

Lemma inspect_ext w w' st m fd request arg :
  symlink w (proc_path fd) = symlink w' (proc_path fd) ->
  inspect_and_patch w st m fd request arg = inspect_and_patch w' st m fd request arg.
Proof.
  intros Hs. unfold inspect_and_patch.
  by rewrite (should_patch_fd_ext w w' st fd Hs).
Qed.

(** Once initialisation has run, a call of a shim that is disabled or has
    no target consults nothing of the process around it: neither the
    environment, nor the dynamic linker, nor the link of the descriptor. *)
Theorem untargeted_call_ignores_process w w' st m fd request arg :
  shim_init_done st = true ->
  shim_disabled st = true \/ target_unset st = true ->
  ioctl w st m fd request arg = ioctl w' st m fd request arg.
Proof.
  intros Hd Hcfg. unfold ioctl. rewrite !shim_init_again by done.
  rewrite !exec_bind_ret.
  assert (Hp : inspect_and_patch w st m fd request arg =
               inspect_and_patch w' st m fd request arg).
  { destruct Hcfg as [Hdis|Hun].
    - rewrite !inspect_skip; auto.
    - unfold inspect_and_patch. by rewrite !should_patch_fd_unset. }
  by rewrite Hp.
Qed.

(** An empty [V4L2_HDR_SHIM_DEVICE] is the same as none: two processes that
    differ only in that behave alike from their first call on. *)
Theorem empty_device_is_unset w w' m fd request arg :
  dlsym_next w "ioctl" = dlsym_next w' "ioctl" ->
  getenv w "V4L2_HDR_SHIM_DISABLE" = getenv w' "V4L2_HDR_SHIM_DISABLE" ->
  getenv w "V4L2_HDR_SHIM_DEVICE" = None ->
  getenv w' "V4L2_HDR_SHIM_DEVICE" = Some "" ->
  symlink w (proc_path fd) = symlink w' (proc_path fd) ->
  ioctl w shim_initial m fd request arg = ioctl w' shim_initial m fd request arg.
Proof.
  intros Hsym Hdis Hdev Hdev' Hs.
  assert (Hi : shim_init w shim_initial = shim_init w' shim_initial).
  { unfold shim_init. cbn. by rewrite Hsym, Hdis, Hdev, Hdev'. }
  unfold ioctl. rewrite Hi.
  destruct (shim_init w' shim_initial) as [t [st| |]]; [|done..].
  unfold mbind at 1 3, exec_bind.
  by rewrite (inspect_ext w w' st m fd request arg Hs).
Qed.

(** *** The matcher *)

Lemma should_patch_fd_returns w st fd :
  exists b : bool, should_patch_fd w st fd = mret b.
Proof.
  destruct (target_dev st) as [t|] eqn:Ht.
  - destruct (Ascii.eqb_spec (CStr.first_char t) CStr.NUL) as [Hc|Hc].
    + exists true. apply should_patch_fd_unset. unfold target_unset.
      rewrite Ht, Hc. done.
    + destruct (should_patch_fd_target w st fd t Ht Hc) as (b & Hb & _). by exists b.
  - exists true. apply should_patch_fd_unset. unfold target_unset. by rewrite Ht.
Qed.

(** [should_patch_fd] always returns, and logs nothing: whatever the
    globals, the descriptor and the contents of the link, [strcmp] meets a
    terminator inside [link]. *)
Theorem should_patch_fd_never_faults w st fd :
  exists b : bool, should_patch_fd w st fd = ([], Ok b).
Proof. apply should_patch_fd_returns. Qed.

(** The answer of the matcher depends on the resolved path only through
    its first 255 bytes. *)
Theorem should_patch_fd_reads_255_bytes w w' st fd :
  (take 255 ∘ CStr.bytes) <$> symlink w (proc_path fd) =
  (take 255 ∘ CStr.bytes) <$> symlink w' (proc_path fd) ->
  should_patch_fd w st fd = should_patch_fd w' st fd.
Proof.
  intros Hs. unfold should_patch_fd, readlink.
  change (256 - 1)%nat with 255%nat.
  destruct (symlink w (proc_path fd)) as [p|], (symlink w' (proc_path fd)) as [p'|];
    cbn in Hs; try done.
  injection Hs as Hs. by rewrite Hs.
Qed.

End Further.

Section Interceptor.

Context `{V : Videodev2}.

(** *** The interceptor *)

(** Every call that returns has forwarded exactly once, with the caller's
    descriptor, request code and pointer, and returns what the real
    function returned for the memory it was handed, patched or not. *)
Theorem ioctl_returns_real_result w st m fd request arg st' r m'' :
  outcome (ioctl w st m fd request arg) = Ok (st', r, m'') ->
  exists f m',
    real_ioctl st' = Some f /\
    outcome (inspect_and_patch w st' m fd request arg) = Ok m' /\
    trace (ioctl w st m fd request arg) =
      (trace (shim_init w st) ++ [EvForward fd request arg m'])%list /\
    r = (f fd request arg m').1 /\
    m'' = (f fd request arg m').2.
Proof.
  unfold ioctl. rewrite exec_bind_outcome, exec_bind_trace.
  destruct (outcome (shim_init w st)) as [st1| |]; [|done..].
  rewrite exec_bind_outcome, exec_bind_trace, inspect_trace. cbn [app].
  destruct (outcome (inspect_and_patch w st1 m fd request arg)) as [m1| |] eqn:Hp;
    [|done..].
  unfold forward. destruct (real_ioctl st1) as [f|] eqn:Hf; [|done].
  cbn. destruct (f fd request arg m1) as [r1 m2] eqn:Hr. cbn.
  intros [= <- <- <-]. exists f, m1. rewrite Hp, Hr. done.
Qed.

(** A null payload pointer is passed on as it is for every request code,
    the set-format code included. *)
Theorem null_pointer_passes_through w st st' m fd request :
  reachable st ->
  outcome (shim_init w st) = Ok st' ->
  exists f,
    real_ioctl st' = Some f /\
    ioctl w st m fd request 0 =
      ((trace (shim_init w st) ++ [EvForward fd request 0 m])%list,
       Ok (st', (f fd request 0 m).1, (f fd request 0 m).2)).
Proof.
  intros Hr Hi. destruct (init_ok_real w st st' Hr Hi) as [f Hf].
  exists f. split; [done|]. apply ioctl_forwarded; [done| |done].
  apply inspect_skip. auto.
Qed.

Lemma hdr_patch_fixed fmt :
  colorspace (pix fmt) = 10 ->
  xfer_func (pix fmt) = 7 ->
  ycbcr_enc (pix fmt) = 6 ->
  quantization (pix fmt) = 2 ->
  hdr_patch fmt = fmt.
Proof.
  destruct fmt as [ty [] tail]. cbn. intros -> -> -> ->. done.
Qed.

(** A payload that already carries the combination the shim writes, 10, 7,
    6 and 2, reaches the real function as the caller wrote it, whatever the
    shim decides. *)
Theorem hdr_payload_forwarded_unchanged w st m fd request arg fmt fd' request' arg' m' :
  m !! arg = Some fmt ->
  colorspace (pix fmt) = 10 ->
  xfer_func (pix fmt) = 7 ->
  ycbcr_enc (pix fmt) = 6 ->
  quantization (pix fmt) = 2 ->
  EvForward fd' request' arg' m' ∈ trace (ioctl w st m fd request arg) ->
  m' = m.
Proof.
  intros Hm Hc Hx Hy Hq He.
  apply ioctl_forward_inv in He as (st' & _ & Hp & _).
  apply inspect_cases in Hp as [->|(fmt0 & Hm0 & -> & _)]; [done|].
  rewrite Hm in Hm0. injection Hm0 as <-.
  rewrite hdr_patch_fixed by done. by apply insert_id.
Qed.

(** The inspection of a readable payload always ends well. *)
Lemma inspect_ok w st m fd request arg :
  (request = VIDIOC_S_FMT -> arg <> 0 -> is_Some (m !! arg)) ->
  exists m', inspect_and_patch w st m fd request arg = mret m'.
Proof.
  intros Hpayload.
  destruct (shim_disabled st) eqn:Hd; [exists m; apply inspect_skip; auto|].
  destruct (Z.eq_dec request VIDIOC_S_FMT) as [->|]; [|exists m; apply inspect_skip; auto].
  destruct (Z.eq_dec arg 0) as [->|Ha]; [exists m; apply inspect_skip; auto|].
  destruct (Hpayload eq_refl Ha) as [fmt Hm].
  destruct (Z.eq_dec (type fmt) V4L2_BUF_TYPE_VIDEO_OUTPUT) as [Hty|Hty].
  - destruct (should_patch_fd_returns w st fd) as [b Hb].
    eexists. by apply (inspect_output w st m fd arg fmt b).
  - exists m. by eapply inspect_other_type.
Qed.

(** Once the real entry point is resolved, a call whose set-format payload
    is readable neither aborts nor faults: it returns. *)
Theorem readable_call_returns w st st' m fd request arg :
  reachable st ->
  outcome (shim_init w st) = Ok st' ->
  (request = VIDIOC_S_FMT -> arg <> 0 -> is_Some (m !! arg)) ->
  exists r m'', outcome (ioctl w st m fd request arg) = Ok (st', r, m'').
Proof.
  intros Hr Hi Hpayload.
  destruct (init_ok_real w st st' Hr Hi) as [f Hf].
  destruct (inspect_ok w st' m fd request arg Hpayload) as [m' Hp].
  rewrite (ioctl_forwarded w st m fd request arg st' m' f Hi Hp Hf). cbn. eauto.
Qed.

(** Whether a payload is patched depends on its type discriminant alone:
    two payloads of the same type, whatever their pixel format and other
    fields, are both patched or both left alone. *)
Theorem patch_decision_ignores_pixel_format w st m fd request arg fmt1 fmt2 :
  type fmt1 = type fmt2 ->
  exists patched : bool,
    inspect_and_patch w st (<[arg := fmt1]> m) fd request arg =
      mret (<[arg := if patched then hdr_patch fmt1 else fmt1]> m) /\
    inspect_and_patch w st (<[arg := fmt2]> m) fd request arg =
      mret (<[arg := if patched then hdr_patch fmt2 else fmt2]> m).
Proof.
  intros Hty.
  assert (Hskip : shim_disabled st = true \/ request <> VIDIOC_S_FMT \/ arg = 0 ->
    exists patched : bool,
      inspect_and_patch w st (<[arg := fmt1]> m) fd request arg =
        mret (<[arg := if patched then hdr_patch fmt1 else fmt1]> m) /\
      inspect_and_patch w st (<[arg := fmt2]> m) fd request arg =
        mret (<[arg := if patched then hdr_patch fmt2 else fmt2]> m)).
  { intros Hs. exists false. by rewrite !inspect_skip. }
  destruct (shim_disabled st) eqn:Hd; [auto|].
  destruct (Z.eq_dec request VIDIOC_S_FMT) as [->|]; [|auto].
  destruct (Z.eq_dec arg 0) as [->|Ha]; [auto|]. clear Hskip.
  destruct (Z.eq_dec (type fmt1) V4L2_BUF_TYPE_VIDEO_OUTPUT) as [Ht1|Ht1].
  - destruct (should_patch_fd_returns w st fd) as [b Hb]. exists b.
    rewrite (inspect_output w st (<[arg := fmt1]> m) fd arg fmt1 b), 
            (inspect_output w st (<[arg := fmt2]> m) fd arg fmt2 b);
      try done; try apply lookup_insert_eq; [|congruence].
    destruct b; [|done]. by rewrite !insert_insert_eq.
  - exists false.
    rewrite (inspect_other_type w st (<[arg := fmt1]> m) fd VIDIOC_S_FMT arg fmt1),
            (inspect_other_type w st (<[arg := fmt2]> m) fd VIDIOC_S_FMT arg fmt2);
      try done; try apply lookup_insert_eq. congruence.
Qed.

(** *** Where a run can abort *)

Lemma inspect_not_aborted w st m fd request arg :
  outcome (inspect_and_patch w st m fd request arg) <> Aborted.
Proof.
  unfold inspect_and_patch. destruct (_ && _); [|done].
  destruct (m !! arg) as [fmt|]; [|done]. destruct (type fmt =? _); [|done].
  destruct (should_patch_fd_returns w st fd) as [[] ->]; done.
Qed.

Lemma ioctl_done_not_aborted w st m fd request arg :
  shim_init_done st = true ->
  outcome (ioctl w st m fd request arg) <> Aborted.
Proof.
  intros Hd. unfold ioctl. rewrite shim_init_again by done.
  rewrite exec_bind_ret, exec_bind_outcome.
  pose proof (inspect_not_aborted w st m fd request arg) as Hp.
  destruct (outcome (inspect_and_patch w st m fd request arg)) as [m1| |];
    [|done..].
  rewrite exec_bind_outcome. unfold forward.
  destruct (real_ioctl st) as [f|]; [|done]. cbn. by destruct (f fd request arg m1).
Qed.

Lemma run_done_not_aborted calls : forall st,
  shim_init_done st = true -> outcome (run st calls) <> Aborted.
Proof.
  induction calls as [|c rest IH]; intros st Hd; [done|].
  cbn [run]. rewrite exec_bind_outcome.
  pose proof (ioctl_done_not_aborted (c_world c) st (c_mem c) (c_fd c)
                (c_request c) (c_arg c) Hd) as Hc.
  destruct (outcome (ioctl _ _ _ _ _ _)) as [[[st1 r] m1]| |] eqn:Hio; [|done..].
  apply IH. eapply shim_init_ok_done, ioctl_ok_state, Hio.
Qed.

(** A run can only abort in its first call, before anything has been
    forwarded: a run that ends in [abort] consists of the failed lookup and
    the diagnostic, so a process in which one call has gone through never
    aborts later. *)
Theorem abort_only_in_first_call calls :
  outcome (run shim_initial calls) = Aborted ->
  trace (run shim_initial calls) = [EvDlsym "ioctl"; EvStderr fatal_diagnostic].
Proof.
  destruct calls as [|c rest]; [done|]. cbn [run].
  rewrite exec_bind_outcome, exec_bind_trace.
  destruct (dlsym_next (c_world c) "ioctl") as [f|] eqn:Hf.
  - destruct (outcome (ioctl _ _ _ _ _ _)) as [[[st1 r] m1]| |] eqn:Hio.
    + intros Hab. exfalso. revert Hab. apply run_done_not_aborted.
      eapply shim_init_ok_done, ioctl_ok_state, Hio.
    + exfalso. revert Hio. unfold ioctl.
      rewrite (shim_init_first_ok _ f Hf), exec_bind_outcome.
      cbn [outcome snd]. rewrite exec_bind_outcome.
      pose proof (inspect_not_aborted (c_world c) (configured f (c_world c))
                    (c_mem c) (c_fd c) (c_request c) (c_arg c)) as Hp.
      destruct (outcome (inspect_and_patch _ _ _ _ _ _)) as [m1| |]; [|done..].
      rewrite exec_bind_outcome. unfold forward.
      assert (Hreal : real_ioctl (configured f (c_world c)) = Some f).
      { unfold configured. by destruct (disable_requested _). }
      rewrite Hreal. cbn. by destruct (f _ _ _ _).
    + done.
  - intros _. unfold ioctl. rewrite (shim_init_first_fail _ Hf). cbn. done.
Qed.

End Interceptor.

(** *** The path of a descriptor *)

Lemma bytes_length s : length (CStr.bytes s) = String.length s.
Proof. induction s as [|c s IH]; cbn; [done|]. by rewrite <- IH. Qed.

Lemma append_length (a b : string) :
  String.length (a +:+ b) = (String.length a + String.length b)%nat.
Proof. induction a as [|c a IH]; simpl; [done|]. by f_equal. Qed.

Lemma pretty_N_go_length (n : nat) : forall (x : N) (s : string),
  (x < 10 ^ N.of_nat n)%N ->
  (String.length (pretty_N_go x s) <= n + String.length s)%nat.
Proof.
  induction n as [|n IH]; intros x s Hx.
  - assert (x = 0%N) as -> by (cbn in Hx; lia). by rewrite pretty_N_go_0.
  - destruct (decide (x = 0%N)) as [->|Hne]; [rewrite pretty_N_go_0; lia|].
    rewrite pretty_N_go_step by lia.
    etrans; [apply IH|cbn; lia].
    rewrite Nat2N.inj_succ, N.pow_succ_r' in Hx.
    apply N.Div0.div_lt_upper_bound. lia.
Qed.

Lemma pretty_positive_length (p : positive) :
  (Npos p <= 2 ^ 31)%N -> (String.length (pretty p) <= 10)%nat.
Proof.
  intros Hp. unfold pretty, pretty_positive, pretty, pretty_N.
  destruct (decide (N.pos p = 0%N)); [done|].
  pose proof (pretty_N_go_length 10 (N.pos p) "") as Hlen. cbn in Hlen.
  apply Hlen. lia.
Qed.

(** A descriptor in the range of [int] prints in at most 11 characters. *)
Lemma pretty_int_length (fd : Z) :
  - 2 ^ 31 <= fd < 2 ^ 31 -> (String.length (pretty fd) <= 11)%nat.
Proof.
  intros Hfd. destruct fd as [|p|p]; unfold pretty, pretty_Z.
  - cbn. lia.
  - etrans; [apply pretty_positive_length|]; lia.
  - rewrite append_length. cbn [String.length].
    pose proof (pretty_positive_length p). lia.
Qed.

Lemma proc_path_uncut (fd : Z) :
  - 2 ^ 31 <= fd < 2 ^ 31 ->
  proc_path fd = "/proc/self/fd/" +:+ pretty fd.
Proof.
  intros Hfd. unfold proc_path, CStr.snprintf_sd.
  rewrite take_ge.
  - apply string_of_list_ascii_of_string.
  - rewrite bytes_length, append_length.
    pose proof (pretty_int_length fd Hfd). cbn [String.length]. lia.
Qed.

(** The 64 bytes of [proc_path] are enough: for every descriptor in the
    range of [int], [snprintf] stores the whole path, uncut, and it is at
    most 25 bytes long. *)
Theorem proc_path_exact (fd : Z) :
  - 2 ^ 31 <= fd < 2 ^ 31 ->
  proc_path fd = "/proc/self/fd/" +:+ pretty fd /\
  (String.length (proc_path fd) <= 25)%nat.
Proof.
  intros Hfd. rewrite proc_path_uncut by done. split; [done|].
  rewrite append_length. pose proof (pretty_int_length fd Hfd).
  cbn [String.length]. lia.
Qed.

(** Two descriptors in the range of [int] are looked up under different
    paths. *)
Theorem proc_path_inj (fd1 fd2 : Z) :
  - 2 ^ 31 <= fd1 < 2 ^ 31 ->
  - 2 ^ 31 <= fd2 < 2 ^ 31 ->
  proc_path fd1 = proc_path fd2 ->
  fd1 = fd2.
Proof.
  intros H1 H2. rewrite !proc_path_uncut by done. cbn.
  intros [= Heq]. by apply (inj pretty).
Qed.

(** ** The reset utility *)

Module UsbResetFacts.
Import UsbReset.

(** The four ways through [main]. *)
Ltac main_paths sys argv :=
  unfold main;
  destruct (Z.eqb_spec (Z.of_nat (length argv)) 2) as [Hargc|Hargc]; cbn [negb];
  [ destruct (sys_open sys (default "" (argv !! 1%nat)) O_WRONLY) as [ofd oerr] eqn:Hopen;
    destruct (Z.ltb_spec ofd 0) as [Hfd|Hfd];
    [ | destruct (sys_ioctl sys ofd USBDEVFS_RESET 0) as [rr rerr] eqn:Hreset;
        destruct (Z.ltb_spec rr 0) as [Hr|Hr] ]
  | ].

Section Main.

Context `{H : Headers}.

(** The exit status is 0 exactly when there is one argument, the device
    node opens and the reset request succeeds; it is 1 otherwise. *)
Theorem exit_status_zero_iff_reset_done sys argv :
  ((main sys argv).2 = 0 <->
   exists prog filename,
     argv = [prog; filename] /\
     0 <= (sys_open sys filename O_WRONLY).1 /\
     0 <= (sys_ioctl sys (sys_open sys filename O_WRONLY).1 USBDEVFS_RESET 0).1) /\
  ((main sys argv).2 = 0 \/ (main sys argv).2 = 1).
Proof.
  assert (Hshape : Z.of_nat (length argv) = 2 ->
            exists prog filename, argv = [prog; filename]).
  { destruct argv as [|prog [|filename [|]]]; cbn; try lia. eauto. }
  main_paths sys argv; cbn.
  - split; [|by right]. split; [done|].
    intros (prog & filename & -> & Ho & _). cbn in Hopen. rewrite Hopen in Ho.
    cbn in Ho. lia.
  - split; [|by right]. split; [done|].
    intros (prog & filename & -> & _ & Hi). cbn in Hopen. rewrite Hopen in Hi.
    cbn in Hi. rewrite Hreset in Hi. cbn in Hi. lia.
  - split; [|by left]. split; [|done]. intros _.
    destruct (Hshape Hargc) as (prog & filename & ->). cbn in Hopen.
    exists prog, filename. rewrite Hopen. cbn. rewrite Hreset. done.
  - split; [|by right]. split; [done|].
    intros (prog & filename & -> & _). by cbn in Hargc.
Qed.

(** A descriptor that [open] returned is closed, and closed once, whether
    the reset succeeded or not. *)
Theorem opened_descriptor_is_closed sys argv fd errno :
  length argv = 2%nat ->
  sys_open sys (default "" (argv !! 1%nat)) O_WRONLY = (fd, errno) ->
  0 <= fd ->
  List.filter is_close (main sys argv).1 = [SysClose fd].
Proof.
  intros Hlen Ho Hpos.
  main_paths sys argv; try lia; injection Ho as -> ->; try lia; done.
Qed.

(** Nothing is closed that was not opened: a [close] in the run is of the
    descriptor that [open] returned for the argument. *)
Theorem close_only_after_open sys argv fd :
  SysClose fd ∈ (main sys argv).1 ->
  length argv = 2%nat /\
  (sys_open sys (default "" (argv !! 1%nat)) O_WRONLY).1 = fd /\
  0 <= fd.
Proof.
  main_paths sys argv; cbn; intros Hin;
    repeat (apply elem_of_cons in Hin as [Hin|Hin]; try discriminate);
    try (by apply elem_of_nil in Hin);
    injection Hin as ->; (split; [lia|split; [done|lia]]).
Qed.

(** The reset request is only made on a descriptor that [open] returned
    for the argument, with the reset code and a null argument. *)
Theorem reset_only_on_opened_device sys argv fd request arg :
  SysIoctl fd request arg ∈ (main sys argv).1 ->
  length argv = 2%nat /\
  (sys_open sys (default "" (argv !! 1%nat)) O_WRONLY).1 = fd /\
  0 <= fd /\
  request = USBDEVFS_RESET /\
  arg = 0.
Proof.
  main_paths sys argv; cbn; intros Hin;
    repeat (apply elem_of_cons in Hin as [Hin|Hin]; try discriminate);
    try (by apply elem_of_nil in Hin);
    injection Hin as -> -> ->; (split; [lia|split; [done|split; [lia|done]]]).
Qed.

(** Success is reported on the standard output and nowhere else, failure
    on the error stream and nowhere else: one line either way. *)
Theorem one_line_on_the_right_stream sys argv :
  if (main sys argv).2 =? 0
  then List.filter is_stdout (main sys argv).1 =
         [ToStdout ("Reset successful on " +:+ default "" (argv !! 1%nat) +:+ newline)] /\
       List.filter is_stderr (main sys argv).1 = []
  else List.filter is_stdout (main sys argv).1 = [] /\
       length (List.filter is_stderr (main sys argv).1) = 1%nat.
Proof. by main_paths sys argv. Qed.

End Main.

(** The utility on a bus with one device. *)

Lemma opened_descriptor_is_closed_witness :
  List.filter is_close
    (main (H := linux) (one_device (-1)) ["usbreset"; "/dev/bus/usb/001/002"]).1
    = [SysClose 3].
Proof.
  apply (opened_descriptor_is_closed (H := linux) (one_device (-1))
           ["usbreset"; "/dev/bus/usb/001/002"] 3 0).
  - reflexivity.
  - reflexivity.
  - lia.
Defined.

Lemma close_only_after_open_witness :
  length ["usbreset"; "/dev/bus/usb/001/002"] = 2%nat /\
  (sys_open (one_device 0) (default "" (["usbreset"; "/dev/bus/usb/001/002"] !! 1%nat))
     (O_WRONLY (Headers := linux))).1 = 3 /\
  0 <= 3.
Proof.
  apply (close_only_after_open (H := linux) (one_device 0)
           ["usbreset"; "/dev/bus/usb/001/002"] 3).
  vm_compute. do 3 apply list_elem_of_further. apply list_elem_of_here.
Defined.

Lemma reset_only_on_opened_device_witness :
  length ["usbreset"; "/dev/bus/usb/001/002"] = 2%nat /\
  (sys_open (one_device 0) (default "" (["usbreset"; "/dev/bus/usb/001/002"] !! 1%nat))
     (O_WRONLY (Headers := linux))).1 = 3 /\
  0 <= 3 /\
  0x5514 = USBDEVFS_RESET (Headers := linux) /\
  0 = 0.
Proof.
  apply (reset_only_on_opened_device (H := linux) (one_device 0)
           ["usbreset"; "/dev/bus/usb/001/002"] 3 0x5514 0).
  vm_compute. apply list_elem_of_further, list_elem_of_here.
Defined.

(** The three failures and the success. *)
Example usbreset_runs :
  main (H := linux) (one_device 0) ["usbreset"] = ([ToStderr usage], 1) /\
  main (H := linux) (one_device 0) ["usbreset"; "/dev/null0"] =
    ([SysOpen "/dev/null0" 1;
      ToStderr ("Error opening device: No such file or directory" +:+ newline)], 1) /\
  main (H := linux) (one_device (-1)) ["usbreset"; "/dev/bus/usb/001/002"] =
    ([SysOpen "/dev/bus/usb/001/002" 1; SysIoctl 3 0x5514 0;
      ToStderr ("Error in ioctl: Device or resource busy" +:+ newline);
      SysClose 3], 1) /\
  main (H := linux) (one_device 0) ["usbreset"; "/dev/bus/usb/001/002"] =
    ([SysOpen "/dev/bus/usb/001/002" 1; SysIoctl 3 0x5514 0;
      ToStdout ("Reset successful on /dev/bus/usb/001/002" +:+ newline);
      SysClose 3], 0).
Proof. by vm_compute. Qed.

End UsbResetFacts.

(** ** The further properties at sample processes *)

Module MoreSamples.
Import Scenario.

#[local] Existing Instance linux_amd64.

(** Two calls of a process started with the switch set; by the second
    call the switch is gone from the environment. *)
Lemma run_keeps_entry_point_and_switch_witness :
  let w := world {[ "V4L2_HDR_SHIM_DISABLE" := "1" ]} nothing_open in
  let st := configured driver w in
  exists st1,
    outcome (shim_init w shim_initial) = Ok st1 /\
    real_ioctl st = real_ioctl st1 /\
    shim_disabled st = shim_disabled st1 /\
    shim_init_done st = true.
Proof.
  intros w st.
  apply (run_keeps_entry_point_and_switch (call w 2 3 VIDIOC_S_FMT)
           [call (world ∅ nothing_open) 2 3 VIDIOC_S_FMT] st).
  reflexivity.
Defined.

(** The same call of a shim with no target, in the process that configured
    it and in one where the linker finds nothing, the environment names a
    target and sets the switch, and descriptor 3 is open. *)
Lemma untargeted_call_ignores_process_witness :
  let w := world ∅ nothing_open in
  let w' :=
    {| dlsym_next := fun _ => None;
       environ := {[ "V4L2_HDR_SHIM_DEVICE" := "/dev/video5";
                     "V4L2_HDR_SHIM_DISABLE" := "1" ]};
       symlink := fd3_on "/dev/video5" |} in
  ioctl w (configured driver w) (payload_at_100 2) 3 VIDIOC_S_FMT 100 =
  ioctl w' (configured driver w) (payload_at_100 2) 3 VIDIOC_S_FMT 100.
Proof.
  intros w w'.
  apply (untargeted_call_ignores_process w w' (configured driver w)).
  - reflexivity.
  - right. reflexivity.
Defined.

Lemma empty_device_is_unset_witness :
  ioctl (world ∅ nothing_open) shim_initial (payload_at_100 2) 3 VIDIOC_S_FMT 100 =
  ioctl (world {[ "V4L2_HDR_SHIM_DEVICE" := "" ]} nothing_open) shim_initial
    (payload_at_100 2) 3 VIDIOC_S_FMT 100.
Proof.
  apply (empty_device_is_unset (world ∅ nothing_open)
           (world {[ "V4L2_HDR_SHIM_DEVICE" := "" ]} nothing_open)).
  - reflexivity.
  - reflexivity.
  - reflexivity.
  - reflexivity.
  - reflexivity.
Defined.

(** Two paths of 256 and 257 bytes that agree on their first 255. *)
Lemma should_patch_fd_reads_255_bytes_witness :
  let w := world ∅ (fd3_on long_path) in
  let w' := world ∅ (fd3_on (long_path +:+ "b")) in
  let st := configured driver (world {[ "V4L2_HDR_SHIM_DEVICE" := "/dev/video5" ]} nothing_open) in
  should_patch_fd w st 3 = should_patch_fd w' st 3.
Proof.
  intros w w' st.
  apply (should_patch_fd_reads_255_bytes w w' st 3).
  reflexivity.
Defined.

Lemma ioctl_returns_real_result_witness :
  let w := world ∅ nothing_open in
  let m := payload_at_100 2 in
  exists f m',
    real_ioctl (configured driver w) = Some f /\
    outcome (inspect_and_patch w (configured driver w) m 3 VIDIOC_S_FMT 100) = Ok m' /\
    trace (ioctl w shim_initial m 3 VIDIOC_S_FMT 100) =
      (trace (shim_init w shim_initial) ++ [EvForward 3 VIDIOC_S_FMT 100 m'])%list /\
    0 = (f 3 VIDIOC_S_FMT 100 m').1 /\
    <[100 := hdr_patch (writer_format 2)]> m = (f 3 VIDIOC_S_FMT 100 m').2.
Proof.
  intros w m.
  apply (ioctl_returns_real_result w shim_initial m 3 VIDIOC_S_FMT 100
           (configured driver w) 0 (<[100 := hdr_patch (writer_format 2)]> m)).
  reflexivity.
Defined.

Lemma null_pointer_passes_through_witness :
  let w := world ∅ nothing_open in
  let m := payload_at_100 2 in
  exists f,
    real_ioctl (configured driver w) = Some f /\
    ioctl w shim_initial m 3 VIDIOC_S_FMT 0 =
      ((trace (shim_init w shim_initial) ++ [EvForward 3 VIDIOC_S_FMT 0 m])%list,
       Ok (configured driver w, (f 3 VIDIOC_S_FMT 0 m).1, (f 3 VIDIOC_S_FMT 0 m).2)).
Proof.
  intros w m.
  apply (null_pointer_passes_through w shim_initial (configured driver w) m 3
           VIDIOC_S_FMT).
  - exists []. reflexivity.
  - reflexivity.
Defined.

(** A 4K P010 payload that the writer has tagged itself, sent through a
    shim with no target: what is forwarded is what the writer sent. *)
Lemma hdr_payload_forwarded_unchanged_witness :
  let tagged :=
    {| type := 2;
       pix := {| width := 3840; height := 2160; pixelformat := 0x30313050;
                 field := 1; bytesperline := 7680; sizeimage := 24883200;
                 colorspace := 10; priv := 0; flags := 0;
                 ycbcr_enc := 6; quantization := 2; xfer_func := 7 |};
       raw_tail := [] |} in
  let m := {[ 100 := tagged ]} : Mem in
  EvForward 3 VIDIOC_S_FMT 100 (<[100 := hdr_patch tagged]> m)
    ∈ trace (ioctl (world ∅ nothing_open) shim_initial m 3 VIDIOC_S_FMT 100) /\
  <[100 := hdr_patch tagged]> m = m.
Proof.
  intros tagged m.
  assert (Hin : EvForward 3 VIDIOC_S_FMT 100 (<[100 := hdr_patch tagged]> m)
                ∈ trace (ioctl (world ∅ nothing_open) shim_initial m 3 VIDIOC_S_FMT 100)).
  { vm_compute. apply list_elem_of_further, list_elem_of_here. }
  split; [exact Hin|].
  apply (hdr_payload_forwarded_unchanged (world ∅ nothing_open) shim_initial m 3
           VIDIOC_S_FMT 100 tagged 3 VIDIOC_S_FMT 100 (<[100 := hdr_patch tagged]> m)).
  - reflexivity.
  - reflexivity.
  - reflexivity.
  - reflexivity.
  - reflexivity.
  - exact Hin.
Defined.

Lemma readable_call_returns_witness :
  let w := world {[ "V4L2_HDR_SHIM_DEVICE" := "/dev/video5" ]} (fd3_on "/dev/video5") in
  exists r m'',
    outcome (ioctl w shim_initial (payload_at_100 2) 3 VIDIOC_S_FMT 100) =
      Ok (configured driver w, r, m'').
Proof.
  intros w.
  apply (readable_call_returns w shim_initial (configured driver w)
           (payload_at_100 2) 3 VIDIOC_S_FMT 100).
  - exists []. reflexivity.
  - reflexivity.
  - intros _ _. exists (writer_format 2). reflexivity.
Defined.

(** An NV12 and a P010 payload of the output type. *)
Lemma patch_decision_ignores_pixel_format_witness :
  let w := world ∅ nothing_open in
  let st := configured driver w in
  let nv12 := writer_format 2 in
  let p010 :=
    {| type := 2;
       pix := {| width := 3840; height := 2160; pixelformat := 0x30313050;
                 field := 1; bytesperline := 7680; sizeimage := 24883200;
                 colorspace := 0; priv := 0; flags := 0;
                 ycbcr_enc := 0; quantization := 0; xfer_func := 0 |};
       raw_tail := [] |} in
  exists patched : bool,
    inspect_and_patch w st (<[100 := nv12]> ∅) 3 VIDIOC_S_FMT 100 =
      mret (<[100 := if patched then hdr_patch nv12 else nv12]> ∅) /\
    inspect_and_patch w st (<[100 := p010]> ∅) 3 VIDIOC_S_FMT 100 =
      mret (<[100 := if patched then hdr_patch p010 else p010]> ∅).
Proof.
  intros w st nv12 p010.
  apply (patch_decision_ignores_pixel_format w st ∅ 3 VIDIOC_S_FMT 100 nv12 p010).
  reflexivity.
Defined.

Lemma abort_only_in_first_call_witness :
  let c := call world_unresolved 2 3 VIDIOC_S_FMT in
  trace (run shim_initial [c; c]) = [EvDlsym "ioctl"; EvStderr fatal_diagnostic].
Proof.
  intros c. apply (abort_only_in_first_call [c; c]). reflexivity.
Defined.

Lemma proc_path_exact_witness :
  proc_path (- 2147483648) = "/proc/self/fd/" +:+ pretty (- 2147483648) /\
  (String.length (proc_path (- 2147483648)) <= 25)%nat.
Proof. apply (proc_path_exact (- 2147483648)). lia. Defined.

Lemma proc_path_inj_witness : 3 = 3.
Proof.
  apply (proc_path_inj 3 3).
  - lia.
  - lia.
  - reflexivity.
Defined.

End MoreSamples.
